(** * Object accessor: materialising native values into persisted objects

    A shallow embedding of [src/object-store/object_accessor.hpp]: the
    [NativeAccessor] conversion interface, the property writer
    [Object::set_property_value] / [Object::set_property_value_impl] and the
    object materialiser [Object::create], together with theorems about
    their behaviour on the store. *)

From Stdlib Require Import ZArith.
From stdpp Require Import base gmap list strings.

Set Warnings "-register-all".
Local Open Scope nat_scope.

(** ** Schema metadata *)

(** Modelled from the spec: the [PropertyType] enumeration of
    property.hpp.  The ten variants are the cases of the [switch] in
    [set_property_value_impl]. *)
Inductive PropertyType :=
  | PropertyTypeInt
  | PropertyTypeBool
  | PropertyTypeString
  | PropertyTypeData
  | PropertyTypeAny
  | PropertyTypeDate
  | PropertyTypeFloat
  | PropertyTypeDouble
  | PropertyTypeObject
  | PropertyTypeArray.

#[global] Instance PropertyType_eq_dec : EqDecision PropertyType.
Proof. solve_decision. Defined.

(** Modelled from the spec: the [Property] struct, with the fields the
    accessor code reads ([name], [type], [object_type], [is_primary],
    [table_column]). *)
Module Property.
Record t := mk {
  name : string;
  type : PropertyType;
  object_type : string;
  is_primary : bool;
  table_column : nat
}.
End Property.

(** Modelled from the spec: the [ObjectSchema] class: a type name, the
    properties in declaration order and the name of the primary key
    property (the empty string when there is none). *)
Module ObjectSchema.
Record t := mk {
  name : string;
  properties : list Property.t;
  primary_key : string
}.
End ObjectSchema.

(** Modelled from the spec: [ObjectSchema::property_for_name], the first
    property in declaration order that carries the name, null otherwise. *)
Definition property_for_name (object_schema : ObjectSchema.t) (prop_name : string)
  : option Property.t :=
  snd <$> list_find (λ p, Property.name p = prop_name)
                    (ObjectSchema.properties object_schema).

(** Modelled from the spec: [ObjectSchema::primary_key_property], the
    property named by [primary_key], null when no such property exists. *)
Definition primary_key_property (object_schema : ObjectSchema.t) : option Property.t :=
  property_for_name object_schema (ObjectSchema.primary_key object_schema).

(** ** Errors and outcomes *)

(** Every failure in the source is a [std::runtime_error] carrying a
    message. *)
Inductive runtime_error := RuntimeError (what : string).

#[global] Instance runtime_error_eq_dec : EqDecision runtime_error.
Proof. solve_decision. Defined.

(** The error kinds of the design, each with the message the source
    builds for it. *)
Definition TransactionStateError : runtime_error :=
  RuntimeError "Can only create objects within a transaction.".

Definition UnknownPropertyError (prop_name object_name : string) : runtime_error :=
  RuntimeError ("Setting invalid property '" +:+ prop_name +:+ "' on object '"
                +:+ object_name +:+ "'.").

Definition DuplicateKeyError (object_name : string) : runtime_error :=
  RuntimeError ("Attempting to create an object of type '" +:+ object_name
                +:+ "' with an exising primary key value.").

Definition MissingValueError (prop_name : string) : runtime_error :=
  RuntimeError ("Missing property value for property " +:+ prop_name).

Definition UnsupportedTypeError : runtime_error :=
  RuntimeError "'Any' type is unsupported".

(** A call either returns or throws. *)
Inductive outcome (A : Type) :=
  | Done (a : A)
  | Throw (e : runtime_error).
Arguments Done {A} a.
Arguments Throw {A} e.

(** ** The store *)

(** Modelled from the spec: the storage backend (tables, rows, typed
    columns, link lists), which is an external collaborator.  A cell
    holds the last value written to a column of a row.  [float] and
    [double] values are carried as their bit patterns, [DateTime] as its
    number of seconds, a binary blob as the bytes of its string. *)
Inductive Mixed :=
  | MixedInt (z : Z)
  | MixedBool (b : bool)
  | MixedString (s : string).

Inductive Cell :=
  | CBool (b : bool)
  | CInt (z : Z)
  | CFloat (bits : Z)
  | CDouble (bits : Z)
  | CString (s : string)
  | CBinary (bytes : string)
  | CMixed (m : Mixed)
  | CDateTime (seconds : Z)
  | CLink (target : option nat)
  | CLinkList (links : list nat).

#[global] Instance Mixed_eq_dec : EqDecision Mixed.
Proof. solve_decision. Defined.
#[global] Instance Cell_eq_dec : EqDecision Cell.
Proof. solve_decision. Defined.

(** A row stores its cells by column index; a table is the sequence of
    its rows, a row's index being its position. *)
Abbreviation RowData := (gmap nat Cell).
Abbreviation Table := (list (gmap nat Cell)).

(** The state behind a [SharedRealm]: whether a write transaction is
    open, and the group of tables by object type.  A type without an
    entry has an empty table. *)
Record Realm := mkRealm {
  is_in_transaction : bool;
  read_group : gmap string Table
}.

(** [ObjectStore::table_for_object_type]. *)
Definition table_for_object_type (group : gmap string Table) (object_type : string)
  : Table := default [] (group !! object_type).

(** A [Row] accessor: the table it belongs to and its index. *)
Record Row := mkRow {
  get_table : string;
  get_index : nat
}.

#[global] Instance Row_eq_dec : EqDecision Row.
Proof. solve_decision. Defined.

(** Reading a column of a row; a column never written reads as the
    backend's default for its type. *)
Definition get_int (r : RowData) (column : nat) : Z :=
  match r !! column with Some (CInt z) => z | _ => 0%Z end.

Definition get_string (r : RowData) (column : nat) : string :=
  match r !! column with Some (CString s) => s | _ => EmptyString end.

Definition get_link (r : RowData) (column : nat) : option nat :=
  match r !! column with Some (CLink t) => t | _ => None end.

Definition get_linklist (r : RowData) (column : nat) : list nat :=
  match r !! column with Some (CLinkList l) => l | _ => [] end.

(** [Table::find_first_int] and [Table::find_first_string]: the index of
    the first row whose column equals the value; [None] is
    [realm::not_found]. *)
Definition find_first_int (column : nat) (v : Z) (t : Table) : option nat :=
  fst <$> list_find (λ r, get_int r column = v) t.

Definition find_first_string (column : nat) (v : string) (t : Table) : option nat :=
  fst <$> list_find (λ r, get_string r column = v) t.

(** The row data behind a row accessor, when the row exists. *)
Definition row_data (realm : Realm) (row : Row) : option RowData :=
  table_for_object_type (read_group realm) (get_table row) !! get_index row.

(** What a column of a row holds: [None] when the row does not exist,
    [Some None] when the row exists and the column was never written. *)
Definition stored_at (realm : Realm) (row : Row) (column : nat)
  : option (option Cell) :=
  (λ r : RowData, r !! column) <$> row_data realm row.

(** The cell stored at a column of a row. *)
Definition cell_at (realm : Realm) (row : Row) (column : nat) : option Cell :=
  row_data realm row ≫= λ r, r !! column.

(** The link list stored at a column of an existing row. *)
Definition linklist_at (realm : Realm) (row : Row) (column : nat)
  : option (list nat) :=
  (λ r, get_linklist r column) <$> row_data realm row.

(** ** Computations on the store *)

(** A computation runs on the realm, returns or throws, and leaves the
    realm as it is at that point: nothing is rolled back on a throw. *)
Definition M (A : Type) : Type := Realm → outcome A * Realm.

Definition ret {A} (a : A) : M A := λ realm, (Done a, realm).

Definition throw {A} (e : runtime_error) : M A := λ realm, (Throw e, realm).

Definition bind {A B} (m : M A) (k : A → M B) : M B :=
  λ realm,
    match m realm with
    | (Done a, realm') => k a realm'
    | (Throw e, realm') => (Throw e, realm')
    end.

(** A conversion that does not touch the realm. *)
Definition lift {A} (o : outcome A) : M A := λ realm, (o, realm).

Definition gets {A} (f : Realm → A) : M A := λ realm, (Done (f realm), realm).

Declare Scope realm_scope.
Delimit Scope realm_scope with realm.
Notation "'let!' x ':=' m 'in' k" := (bind m (λ x, k))
  (at level 10, x pattern, m at level 100, k at level 200) : realm_scope.
Notation "m ';;;' k" := (bind m (λ _, k))
  (at level 100, right associativity) : realm_scope.
Local Open Scope realm_scope.

(** Writes go to the row's table in the group.  A row accessor that
    points outside its table is not written (the source leaves that case
    to the backend). *)
Definition update_row (row : Row) (f : RowData → RowData) : M unit :=
  λ realm,
    (Done tt,
     {| is_in_transaction := is_in_transaction realm;
        read_group := alter (alter f (get_index row)) (get_table row)
                            (read_group realm) |}).

Definition set_cell (row : Row) (column : nat) (c : Cell) : M unit :=
  update_row row (<[column := c]>).

Definition set_bool row column (v : bool) := set_cell row column (CBool v).
Definition set_int row column (v : Z) := set_cell row column (CInt v).
Definition set_float row column (v : Z) := set_cell row column (CFloat v).
Definition set_double row column (v : Z) := set_cell row column (CDouble v).
Definition set_string row column (v : string) := set_cell row column (CString v).
Definition set_binary row column (v : string) := set_cell row column (CBinary v).
Definition set_mixed row column (v : Mixed) := set_cell row column (CMixed v).
Definition set_datetime row column (v : Z) := set_cell row column (CDateTime v).
Definition set_link row column (target : nat) := set_cell row column (CLink (Some target)).
Definition nullify_link row column := set_cell row column (CLink None).

(** [LinkView::clear] and [LinkView::add] on the link list of a column. *)
Definition linkview_clear (row : Row) (column : nat) : M unit :=
  set_cell row column (CLinkList []).

Definition linkview_add (row : Row) (column : nat) (target : nat) : M unit :=
  update_row row (λ r, <[column := CLinkList (get_linklist r column ++ [target])]> r).

(** [Table::add_empty_row]: appends a row without any written cell and
    returns its index. *)
Definition add_empty_row (object_type : string) : M nat :=
  λ realm,
    let table := table_for_object_type (read_group realm) object_type in
    (Done (length table),
     {| is_in_transaction := is_in_transaction realm;
        read_group := <[object_type := table ++ [∅]]> (read_group realm) |}).

(** ** The conversion interface *)

(** [NativeAccessor<ValueType, ContextType>]: one implementation per
    front end.  Only [to_object_index] receives the realm, so only it is
    a computation on the store; the other converters either return or
    throw, and the three predicates return. *)
Class NativeAccessor (ValueType ContextType : Type) := {
  dict_has_value_for_key : ContextType → ValueType → string → bool;
  dict_value_for_key : ContextType → ValueType → string → outcome ValueType;
  has_default_value_for_property : ContextType → ObjectSchema.t → string → bool;
  default_value_for_property :
    ContextType → ObjectSchema.t → string → outcome ValueType;
  to_bool : ContextType → ValueType → outcome bool;
  to_long : ContextType → ValueType → outcome Z;
  to_float : ContextType → ValueType → outcome Z;
  to_double : ContextType → ValueType → outcome Z;
  to_string : ContextType → ValueType → outcome string;
  to_datetime : ContextType → ValueType → outcome Z;
  is_null : ContextType → ValueType → bool;
  to_object_index : ContextType → ValueType → string → bool → M nat;
  array_size : ContextType → ValueType → outcome nat;
  array_value_at_index : ContextType → ValueType → nat → outcome ValueType
}.

(** The deprecated converter has its body in the primary template. *)
Definition to_mixed {ValueType ContextType : Type}
  (ctx : ContextType) (val : ValueType) : outcome Mixed :=
  Throw UnsupportedTypeError.

(** ** Objects *)

(** An [Object]: its schema and its row (the realm is the state of [M]). *)
Record Object := mkObject {
  object_schema : ObjectSchema.t;
  row : Row
}.

Section Accessor.
Context {ValueType ContextType : Type}.
Context {Accessor : NativeAccessor ValueType ContextType}.

(** The loop of the [PropertyTypeArray] case: elements [i], [i+1], ...,
    [n] of them, each resolved and appended in turn. *)
Fixpoint add_links (ctx : ContextType) (row : Row) (column : nat)
    (value : ValueType) (object_type : string) (try_update : bool)
    (i n : nat) : M unit :=
  match n with
  | O => ret tt
  | S n' =>
      let! element := lift (array_value_at_index ctx value i) in
      let! target := to_object_index ctx element object_type try_update in
      linkview_add row column target ;;;
      add_links ctx row column value object_type try_update (S i) n'
  end.

(** [Object::set_property_value_impl]. *)
Definition set_property_value_impl (ctx : ContextType) (object : Object)
    (property : Property.t) (value : ValueType) (try_update : bool) : M unit :=
  let column := Property.table_column property in
  match Property.type property with
  | PropertyTypeBool =>
      let! v := lift (to_bool ctx value) in set_bool (row object) column v
  | PropertyTypeInt =>
      let! v := lift (to_long ctx value) in set_int (row object) column v
  | PropertyTypeFloat =>
      let! v := lift (to_float ctx value) in set_float (row object) column v
  | PropertyTypeDouble =>
      let! v := lift (to_double ctx value) in set_double (row object) column v
  | PropertyTypeString =>
      let! v := lift (to_string ctx value) in set_string (row object) column v
  | PropertyTypeData =>
      let! v := lift (to_string ctx value) in set_binary (row object) column v
  | PropertyTypeAny =>
      let! v := lift (to_mixed ctx value) in set_mixed (row object) column v
  | PropertyTypeDate =>
      let! v := lift (to_datetime ctx value) in set_datetime (row object) column v
  | PropertyTypeObject =>
      if is_null ctx value then nullify_link (row object) column
      else
        let! target := to_object_index ctx value (Property.object_type property)
                                       try_update in
        set_link (row object) column target
  | PropertyTypeArray =>
      linkview_clear (row object) column ;;;
      let! count := lift (array_size ctx value) in
      add_links ctx (row object) column value (Property.object_type property)
                try_update 0 count
  end.

(** [Object::set_property_value]. *)
Definition set_property_value (ctx : ContextType) (object : Object)
    (prop_name : string) (value : ValueType) (try_update : bool) : M unit :=
  match property_for_name (object_schema object) prop_name with
  | None =>
      throw (UnknownPropertyError prop_name
               (ObjectSchema.name (object_schema object)))
  | Some prop => set_property_value_impl ctx object prop value try_update
  end.

(** The search for an existing row in [Object::create], for a schema
    whose primary key property is [primary_prop]: the key is taken from
    the input and looked up by string or by integer. *)
Definition find_existing_row (ctx : ContextType) (object_schema : ObjectSchema.t)
    (primary_prop : Property.t) (value : ValueType) : M (option nat) :=
  let! primary_value :=
    lift (dict_value_for_key ctx value (ObjectSchema.primary_key object_schema)) in
  if decide (Property.type primary_prop = PropertyTypeString) then
    let! key := lift (to_string ctx primary_value) in
    gets (λ realm,
      find_first_string (Property.table_column primary_prop) key
        (table_for_object_type (read_group realm)
                               (ObjectSchema.name object_schema)))
  else
    let! key := lift (to_long ctx primary_value) in
    gets (λ realm,
      find_first_int (Property.table_column primary_prop) key
        (table_for_object_type (read_group realm)
                               (ObjectSchema.name object_schema))).

(** The body of the populate loop of [Object::create] for one property. *)
Definition populate_property (ctx : ContextType) (object : Object)
    (value : ValueType) (try_update created : bool) (prop : Property.t)
  : M unit :=
  if created || negb (Property.is_primary prop) then
    if dict_has_value_for_key ctx value (Property.name prop) then
      let! v := lift (dict_value_for_key ctx value (Property.name prop)) in
      set_property_value_impl ctx object prop v try_update
    else if created then
      if has_default_value_for_property ctx (object_schema object)
                                        (Property.name prop) then
        let! v := lift (default_value_for_property ctx (object_schema object)
                                                   (Property.name prop)) in
        set_property_value_impl ctx object prop v try_update
      else throw (MissingValueError (Property.name prop))
    else ret tt
  else ret tt.

(** The populate loop over the properties in declaration order. *)
Fixpoint populate (ctx : ContextType) (object : Object) (value : ValueType)
    (try_update created : bool) (props : list Property.t) : M unit :=
  match props with
  | [] => ret tt
  | prop :: rest =>
      populate_property ctx object value try_update created prop ;;;
      populate ctx object value try_update created rest
  end.

(** The first half of [Object::create], up to the comment "populate":
    the transaction check, the search by primary key with the
    duplicate check, and the allocation of a row when none was found.
    Returns [row_index] and [created]. *)
Definition get_or_create_row (ctx : ContextType) (object_schema : ObjectSchema.t)
    (value : ValueType) (try_update : bool) : M (nat * bool) :=
  let! in_transaction := gets is_in_transaction in
  if negb in_transaction then throw TransactionStateError
  else
    let table := ObjectSchema.name object_schema in
    let! row_index :=
      match primary_key_property object_schema with
      | Some primary_prop =>
          let! row_index := find_existing_row ctx object_schema primary_prop value in
          if negb try_update && bool_decide (row_index ≠ None)
          then throw (DuplicateKeyError (ObjectSchema.name object_schema))
          else ret row_index
      | None => ret None
      end in
    match row_index with
    | None => let! row_index := add_empty_row table in ret (row_index, true)
    | Some row_index => ret (row_index, false)
    end.

(** [Object::create]. *)
Definition create (ctx : ContextType) (object_schema : ObjectSchema.t)
    (value : ValueType) (try_update : bool) : M Object :=
  let! (row_index, created) :=
    get_or_create_row ctx object_schema value try_update in
  let object :=
    mkObject object_schema (mkRow (ObjectSchema.name object_schema) row_index) in
  populate ctx object value try_update created
           (ObjectSchema.properties object_schema) ;;;
  ret object.

End Accessor.

(** ** Vocabulary for the statements *)

(** The table that backs a schema in a realm. *)
Definition backing_table (realm : Realm) (object_schema : ObjectSchema.t) : Table :=
  table_for_object_type (read_group realm) (ObjectSchema.name object_schema).

(** The realm after [add_empty_row] on the table of a schema. *)
Definition with_empty_row (realm : Realm) (object_schema : ObjectSchema.t) : Realm :=
  {| is_in_transaction := is_in_transaction realm;
     read_group := <[ObjectSchema.name object_schema :=
                       backing_table realm object_schema ++ [∅]]>
                   (read_group realm) |}.

Section Keys.
Context {ValueType ContextType : Type}.
Context {Accessor : NativeAccessor ValueType ContextType}.

(** The comparison [create] asks of the backend for the value
    [primary_value] taken from the input: the string stored in the
    primary key column equals its conversion by [to_string] when the
    primary key has type string, the integer stored equals its
    conversion by [to_long] otherwise. *)
Definition key_matches (ctx : ContextType) (primary_prop : Property.t)
    (primary_value : ValueType) (r : RowData) : Prop :=
  if decide (Property.type primary_prop = PropertyTypeString)
  then to_string ctx primary_value
       = Done (get_string r (Property.table_column primary_prop))
  else to_long ctx primary_value
       = Done (get_int r (Property.table_column primary_prop)).

(** The conversion of the key that [create] asks for returns. *)
Definition key_converts (ctx : ContextType) (primary_prop : Property.t)
    (primary_value : ValueType) : Prop :=
  if decide (Property.type primary_prop = PropertyTypeString)
  then ∃ key, to_string ctx primary_value = Done key
  else ∃ key, to_long ctx primary_value = Done key.

(** Row [i] is the first row of the table whose key matches. *)
Definition first_key_match (ctx : ContextType) (primary_prop : Property.t)
    (primary_value : ValueType) (t : Table) (i : nat) : Prop :=
  ∃ r, t !! i = Some r ∧ key_matches ctx primary_prop primary_value r
       ∧ ∀ j r', t !! j = Some r' → j < i →
                 ¬ key_matches ctx primary_prop primary_value r'.

(** The second half of [Object::create], from the comment "populate"
    on, for the row [row_index]. *)
Definition populate_row (ctx : ContextType) (object_schema : ObjectSchema.t)
    (value : ValueType) (try_update : bool) (row_index : nat) (created : bool)
  : M Object :=
  let object :=
    mkObject object_schema (mkRow (ObjectSchema.name object_schema) row_index) in
  populate ctx object value try_update created
           (ObjectSchema.properties object_schema) ;;;
  ret object.

(** The resolutions that the loop over the elements performs when it is
    run from [realm] (elements [i], [i+1], ..., [n] of them at most, up
    to the first failure) each leave what [wcolumn] of [wrow] holds as
    they find it.  This follows the run of [add_links], with the realm
    each resolution starts from. *)
Fixpoint add_links_spares (ctx : ContextType) (row : Row) (column : nat)
    (value : ValueType) (object_type : string) (try_update : bool)
    (wrow : Row) (wcolumn : nat) (i n : nat) (realm : Realm) : Prop :=
  match n with
  | O => True
  | S n' =>
      match array_value_at_index ctx value i with
      | Throw _ => True
      | Done element =>
          match to_object_index ctx element object_type try_update realm with
          | (o, realm1) =>
              stored_at realm1 wrow wcolumn = stored_at realm wrow wcolumn
              ∧ match o with
                | Done target =>
                    add_links_spares ctx row column value object_type try_update
                      wrow wcolumn (S i) n'
                      (linkview_add row column target realm1).2
                | Throw _ => True
                end
          end
      end
  end.

(** The resolutions that one write of a property performs when it is run
    from [realm] leave what [wcolumn] of [wrow] holds as they find it:
    the one resolution of a non-null value for the type object, those of
    the loop for the type array, none for the other types. *)
Definition write_spares (ctx : ContextType) (object : Object)
    (property : Property.t) (value : ValueType) (try_update : bool)
    (wrow : Row) (wcolumn : nat) (realm : Realm) : Prop :=
  match Property.type property with
  | PropertyTypeObject =>
      if is_null ctx value then True
      else
        stored_at (to_object_index ctx value (Property.object_type property)
                                   try_update realm).2 wrow wcolumn
        = stored_at realm wrow wcolumn
  | PropertyTypeArray =>
      match array_size ctx value with
      | Done count =>
          add_links_spares ctx (row object) (Property.table_column property)
            value (Property.object_type property) try_update wrow wcolumn 0 count
            (linkview_clear (row object) (Property.table_column property) realm).2
      | Throw _ => True
      end
  | _ => True
  end.

(** The same for one turn of the populate loop, with the value that the
    turn hands to the writer. *)
Definition turn_spares (ctx : ContextType) (object : Object)
    (value : ValueType) (try_update created : bool) (prop : Property.t)
    (wrow : Row) (wcolumn : nat) (realm : Realm) : Prop :=
  if created || negb (Property.is_primary prop) then
    if dict_has_value_for_key ctx value (Property.name prop) then
      match dict_value_for_key ctx value (Property.name prop) with
      | Done v => write_spares ctx object prop v try_update wrow wcolumn realm
      | Throw _ => True
      end
    else if created then
      if has_default_value_for_property ctx (object_schema object)
                                        (Property.name prop) then
        match default_value_for_property ctx (object_schema object)
                                         (Property.name prop) with
        | Done v => write_spares ctx object prop v try_update wrow wcolumn realm
        | Throw _ => True
        end
      else True
    else True
  else True.

(** The same for the populate loop run from [realm], each turn from the
    realm the turn before it left. *)
Fixpoint populate_spares (ctx : ContextType) (object : Object)
    (value : ValueType) (try_update created : bool) (props : list Property.t)
    (wrow : Row) (wcolumn : nat) (realm : Realm) : Prop :=
  match props with
  | [] => True
  | prop :: rest =>
      turn_spares ctx object value try_update created prop wrow wcolumn realm
      ∧ match populate_property ctx object value try_update created prop realm with
        | (Done _, realm1) =>
            populate_spares ctx object value try_update created rest
                            wrow wcolumn realm1
        | (Throw _, _) => True
        end
  end.

(** Element [index] of the array fails with [e] when the loop comes to
    it in [realm]: fetching it throws, the realm staying as it is, or
    resolving it from [realm] throws and leaves [realm']. *)
Definition element_fails (ctx : ContextType) (value : ValueType)
    (object_type : string) (try_update : bool) (index : nat)
    (realm : Realm) (e : runtime_error) (realm' : Realm) : Prop :=
  (array_value_at_index ctx value index = Throw e ∧ realm' = realm)
  ∨ ∃ element,
      array_value_at_index ctx value index = Done element
      ∧ to_object_index ctx element object_type try_update realm
        = (Throw e, realm').

(** [target] is what element [index] of the array [value] resolves to,
    in some realm. *)
Definition resolves_to (ctx : ContextType) (value : ValueType)
    (object_type : string) (try_update : bool) (index target : nat) : Prop :=
  ∃ element realm realm',
    array_value_at_index ctx value index = Done element
    ∧ to_object_index ctx element object_type try_update realm
      = (Done target, realm').

(** Fetching or resolving element [index] of the array throws [e]. *)
Definition fails_at (ctx : ContextType) (value : ValueType)
    (object_type : string) (try_update : bool) (index : nat)
    (e : runtime_error) : Prop :=
  array_value_at_index ctx value index = Throw e
  ∨ ∃ element realm realm',
      array_value_at_index ctx value index = Done element
      ∧ to_object_index ctx element object_type try_update realm
        = (Throw e, realm').

(** The properties an update writes: those that are not the primary
    key and for which the input reports an entry. *)
Definition updated_by (ctx : ContextType) (value : ValueType)
    (prop : Property.t) : Prop :=
  Property.is_primary prop = false
  ∧ dict_has_value_for_key ctx value (Property.name prop) = true.

#[global] Instance updated_by_dec ctx value prop :
  Decision (updated_by ctx value prop).
Proof. unfold updated_by. apply _. Defined.

(** An accessor that answers the presence and default questions in
    another way and converts as [Accessor] does. *)
Definition with_presence
    (has_value : ContextType → ValueType → string → bool)
    (has_default : ContextType → ObjectSchema.t → string → bool)
    (default_value : ContextType → ObjectSchema.t → string → outcome ValueType)
  : NativeAccessor ValueType ContextType :=
  {| dict_has_value_for_key := has_value;
     dict_value_for_key := dict_value_for_key;
     has_default_value_for_property := has_default;
     default_value_for_property := default_value;
     to_bool := to_bool;
     to_long := to_long;
     to_float := to_float;
     to_double := to_double;
     to_string := to_string;
     to_datetime := to_datetime;
     is_null := is_null;
     to_object_index := to_object_index;
     array_size := array_size;
     array_value_at_index := array_value_at_index |}.
End Keys.

(** ** A dictionary front end

    One implementation of the conversion interface, the template
    argument of the examples below. *)

(** Modelled from the spec: the values of a front end (the
    implementations of the accessor per host are external): scalars,
    dictionaries, arrays and references to persisted objects. *)
Inductive JSValue :=
  | JSUndefined
  | JSNull
  | JSBoolean (b : bool)
  | JSNumber (z : Z)
  | JSString (s : string)
  | JSDict (entries : list (string * JSValue))
  | JSArray (items : list JSValue)
  | JSRealmObject (index : nat).

(** The conversion context: the schemas by type name and the registered
    default values by type and property name. *)
Record JSContext := mkJSContext {
  schemas : list ObjectSchema.t;
  defaults : list (string * string * JSValue)
}.

Definition js_entry (entries : list (string * JSValue)) (key : string)
  : option JSValue :=
  (λ found, snd (snd found)) <$> list_find (λ e, fst e = key) entries.

Definition js_default (ctx : JSContext) (object_schema : ObjectSchema.t)
    (prop_name : string) : option JSValue :=
  (λ found, snd (snd found))
    <$> list_find (λ d, fst d = (ObjectSchema.name object_schema, prop_name))
                  (defaults ctx).

Definition js_schema (ctx : JSContext) (type : string) : option ObjectSchema.t :=
  snd <$> list_find (λ s, ObjectSchema.name s = type) (schemas ctx).

Definition js_type_error {A} (expected : string) : outcome A :=
  Throw (RuntimeError ("Value is not " +:+ expected)).

Definition js_dict_has_value_for_key (ctx : JSContext) (dict : JSValue)
    (prop_name : string) : bool :=
  match dict with
  | JSDict entries => bool_decide (is_Some (js_entry entries prop_name))
  | _ => false
  end.

Definition js_dict_value_for_key (ctx : JSContext) (dict : JSValue)
    (prop_name : string) : outcome JSValue :=
  match dict with
  | JSDict entries => Done (default JSUndefined (js_entry entries prop_name))
  | _ => js_type_error "an object"
  end.

Definition js_to_bool (ctx : JSContext) (val : JSValue) : outcome bool :=
  match val with JSBoolean b => Done b | _ => js_type_error "a boolean" end.

Definition js_to_number (ctx : JSContext) (val : JSValue) : outcome Z :=
  match val with JSNumber z => Done z | _ => js_type_error "a number" end.

Definition js_to_string (ctx : JSContext) (val : JSValue) : outcome string :=
  match val with JSString s => Done s | _ => js_type_error "a string" end.

Definition js_is_null (ctx : JSContext) (val : JSValue) : bool :=
  match val with JSUndefined | JSNull => true | _ => false end.

Definition js_array_size (ctx : JSContext) (val : JSValue) : outcome nat :=
  match val with JSArray items => Done (length items) | _ => js_type_error "an array" end.

Definition js_array_value_at_index (ctx : JSContext) (val : JSValue) (index : nat)
  : outcome JSValue :=
  match val with
  | JSArray items => Done (default JSUndefined (items !! index))
  | _ => js_type_error "an array"
  end.

(** Modelled from the spec: an implementation of the value accessor
    contract over [JSValue].  Its [to_object_index] follows the comment
    of the interface: for an existing object it returns the existing row
    index, and a dictionary is created or updated through
    [Object::create], with the same upsert flag, and the row index of
    the result is returned.  [depth] bounds the nesting of dictionaries
    that are materialised. *)
Fixpoint JSAccessor (depth : nat) : NativeAccessor JSValue JSContext :=
  {| dict_has_value_for_key := js_dict_has_value_for_key;
     dict_value_for_key := js_dict_value_for_key;
     has_default_value_for_property := λ ctx object_schema prop_name,
       bool_decide (is_Some (js_default ctx object_schema prop_name));
     default_value_for_property := λ ctx object_schema prop_name,
       Done (default JSUndefined (js_default ctx object_schema prop_name));
     to_bool := js_to_bool;
     to_long := js_to_number;
     to_float := js_to_number;
     to_double := js_to_number;
     to_string := js_to_string;
     to_datetime := js_to_number;
     is_null := js_is_null;
     to_object_index := λ ctx val type try_update,
       match val with
       | JSRealmObject index => ret index
       | JSDict _ =>
           match depth with
           | O => throw (RuntimeError "Value is nested too deeply")
           | S depth' =>
               match js_schema ctx type with
               | Some object_schema =>
                   let! child := create (Accessor := JSAccessor depth')
                                        ctx object_schema val try_update in
                   ret (get_index (row child))
               | None => throw (RuntimeError ("Unknown object type " +:+ type))
               end
           end
       | _ => lift (js_type_error "an object")
       end;
     array_size := js_array_size;
     array_value_at_index := js_array_value_at_index |}.

(** *** Sample data *)

Definition person_id := Property.mk "id" PropertyTypeInt "" true 0.
Definition person_name := Property.mk "name" PropertyTypeString "" false 1.
Definition person_friend := Property.mk "friend" PropertyTypeObject "Person" false 2.
Definition person_friends := Property.mk "friends" PropertyTypeArray "Person" false 3.
Definition person_misc := Property.mk "misc" PropertyTypeAny "" false 4.

Definition Person : ObjectSchema.t :=
  ObjectSchema.mk "Person" [person_id; person_name; person_friend; person_friends] "id".

(** A type without primary key. *)
Definition Note : ObjectSchema.t :=
  ObjectSchema.mk "Note" [Property.mk "text" PropertyTypeString "" false 0] "".

Definition sample_ctx : JSContext :=
  mkJSContext [Person; Note]
    [("Person", "friend", JSNull); ("Person", "friends", JSArray [])].

(** A realm in a write transaction with one person: id 1, name "Ann",
    no friend, friends = [0] (herself). *)
Definition ann : RowData :=
  <[0 := CInt 1]> (<[1 := CString "Ann"]> (<[2 := CLink None]>
    (<[3 := CLinkList [0]]> ∅))).

Definition sample_realm : Realm := mkRealm true (<["Person" := [ann]]> ∅).

Definition ann_row : Row := mkRow "Person" 0.

(** ** Vocabulary for writes of scalars *)

(** The two property types whose write resolves objects. *)
Definition is_link_type (t : PropertyType) : bool :=
  match t with
  | PropertyTypeObject | PropertyTypeArray => true
  | _ => false
  end.

(** [realm'] differs from [realm] in the cells of [row] at most: the
    transaction flag, the size of every table and every other row are
    the same. *)
Definition same_but_row (realm realm' : Realm) (row : Row) : Prop :=
  is_in_transaction realm' = is_in_transaction realm
  ∧ (∀ object_type,
       length (table_for_object_type (read_group realm') object_type)
       = length (table_for_object_type (read_group realm) object_type))
  ∧ ∀ row', row' ≠ row → row_data realm' row' = row_data realm row'.

Section Scalars.
Context {ValueType ContextType : Type}.
Context {Accessor : NativeAccessor ValueType ContextType}.

(** The cell that the [switch] of [set_property_value_impl] writes for a
    value, by the type of the property: the conversion asked of the
    accessor returns, and the cell is the one of the setter called.  No
    cell for the type any, whose conversion throws, nor for the two link
    types. *)
Definition converted_to (ctx : ContextType) (prop : Property.t)
    (value : ValueType) (c : Cell) : Prop :=
  match Property.type prop with
  | PropertyTypeBool => ∃ v, to_bool ctx value = Done v ∧ c = CBool v
  | PropertyTypeInt => ∃ v, to_long ctx value = Done v ∧ c = CInt v
  | PropertyTypeFloat => ∃ v, to_float ctx value = Done v ∧ c = CFloat v
  | PropertyTypeDouble => ∃ v, to_double ctx value = Done v ∧ c = CDouble v
  | PropertyTypeString => ∃ v, to_string ctx value = Done v ∧ c = CString v
  | PropertyTypeData => ∃ v, to_string ctx value = Done v ∧ c = CBinary v
  | PropertyTypeDate => ∃ v, to_datetime ctx value = Done v ∧ c = CDateTime v
  | PropertyTypeAny | PropertyTypeObject | PropertyTypeArray => False
  end.

(** The value that the populate loop of [create] hands to the writer for
    a property: the entry of the input when there is one, otherwise, for
    a created row, the registered default. *)
Definition supplied (ctx : ContextType) (object_schema : ObjectSchema.t)
    (value : ValueType) (created : bool) (prop : Property.t) (v : ValueType)
  : Prop :=
  (created = true ∨ Property.is_primary prop = false)
  ∧ ((dict_has_value_for_key ctx value (Property.name prop) = true
      ∧ dict_value_for_key ctx value (Property.name prop) = Done v)
     ∨ (created = true
        ∧ dict_has_value_for_key ctx value (Property.name prop) = false
        ∧ has_default_value_for_property ctx object_schema (Property.name prop)
          = true
        ∧ default_value_for_property ctx object_schema (Property.name prop)
          = Done v)).

(** The populate loop passes over a property of a row that was found:
    the primary key, and a property without entry in the input. *)
Definition passed_over (ctx : ContextType) (value : ValueType) (created : bool)
    (prop : Property.t) : Prop :=
  created = false
  ∧ (Property.is_primary prop = true
     ∨ dict_has_value_for_key ctx value (Property.name prop) = false).
End Scalars.

(** A realm in a write transaction, without any row. *)
Definition empty_realm : Realm := mkRealm true ∅.

(** A type with scalar properties only. *)
Definition account_id := Property.mk "id" PropertyTypeInt "" true 0.
Definition account_owner := Property.mk "owner" PropertyTypeString "" false 1.
Definition account_open := Property.mk "open" PropertyTypeBool "" false 2.
Definition account_key := Property.mk "key" PropertyTypeData "" false 3.

Definition Account : ObjectSchema.t :=
  ObjectSchema.mk "Account" [account_id; account_owner; account_open; account_key]
                  "id".

Definition account_ctx : JSContext :=
  mkJSContext [Account] [("Account", "open", JSBoolean true);
                         ("Account", "key", JSString "")].

Definition account_value : JSValue :=
  JSDict [("id", JSNumber 7); ("owner", JSString "Eve")].

(** The row of that account once created, with the two defaults, and a
    realm that holds it. *)
Definition eve : RowData :=
  <[0 := CInt 7]> (<[1 := CString "Eve"]> (<[2 := CBool true]>
    (<[3 := CBinary ""]> ∅))).

Definition eve_realm : Realm := mkRealm true (<["Account" := [eve]]> ∅).

Definition eve_row : Row := mkRow "Account" 0.

(** ** Reasoning about computations *)

Lemma bind_done {A B} (m : M A) (k : A → M B) realm a realm' :
  m realm = (Done a, realm') → bind m k realm = k a realm'.
Proof. intros Hm. unfold bind. by rewrite Hm. Qed.

Lemma bind_throw {A B} (m : M A) (k : A → M B) realm e realm' :
  m realm = (Throw e, realm') → bind m k realm = (Throw e, realm').
Proof. intros Hm. unfold bind. by rewrite Hm. Qed.

Lemma bind_lift {A B} (o : outcome A) (k : A → M B) realm :
  bind (lift o) k realm
  = match o with Done a => k a realm | Throw e => (Throw e, realm) end.
Proof. unfold bind, lift. by destruct o. Qed.

Lemma bind_inv {A B} (m : M A) (k : A → M B) realm o realm' :
  bind m k realm = (o, realm') →
  (∃ a realm1, m realm = (Done a, realm1) ∧ k a realm1 = (o, realm'))
  ∨ (∃ e, m realm = (Throw e, realm') ∧ o = Throw e).
Proof.
  unfold bind. destruct (m realm) as [[a|e] realm1]; intros Hk.
  - left. eauto.
  - right. exists e. by inversion Hk.
Qed.

(** ** The backend's searches *)

Lemma find_first_string_Some column v (t : Table) i :
  find_first_string column v t = Some i ↔
  ∃ r, t !! i = Some r ∧ get_string r column = v
       ∧ ∀ j r', t !! j = Some r' → j < i → get_string r' column ≠ v.
Proof.
  unfold find_first_string. rewrite fmap_Some. split.
  - intros [[i' r] [Hfind Hi]]. simpl in Hi. subst i'.
    apply list_find_Some in Hfind as (Hr & Hv & Hmin). eauto.
  - intros (r & Hr & Hv & Hmin). exists (i, r). split; [|done].
    apply list_find_Some. naive_solver.
Qed.

Lemma find_first_string_None column v (t : Table) :
  find_first_string column v t = None ↔
  ∀ j r, t !! j = Some r → get_string r column ≠ v.
Proof.
  unfold find_first_string. rewrite fmap_None, list_find_None, Forall_lookup.
  done.
Qed.

Lemma find_first_int_Some column v (t : Table) i :
  find_first_int column v t = Some i ↔
  ∃ r, t !! i = Some r ∧ get_int r column = v
       ∧ ∀ j r', t !! j = Some r' → j < i → get_int r' column ≠ v.
Proof.
  unfold find_first_int. rewrite fmap_Some. split.
  - intros [[i' r] [Hfind Hi]]. simpl in Hi. subst i'.
    apply list_find_Some in Hfind as (Hr & Hv & Hmin). eauto.
  - intros (r & Hr & Hv & Hmin). exists (i, r). split; [|done].
    apply list_find_Some. naive_solver.
Qed.

Lemma find_first_int_None column v (t : Table) :
  find_first_int column v t = None ↔
  ∀ j r, t !! j = Some r → get_int r column ≠ v.
Proof.
  unfold find_first_int. rewrite fmap_None, list_find_None, Forall_lookup.
  done.
Qed.

Section Locate.
Context {ValueType ContextType : Type}.
Context {Accessor : NativeAccessor ValueType ContextType}.
Implicit Types (ctx : ContextType) (value : ValueType) (realm : Realm).

(** The search reads the realm and leaves it as it is. *)
Lemma find_existing_row_realm ctx object_schema primary_prop value realm :
  (find_existing_row ctx object_schema primary_prop value realm).2 = realm.
Proof.
  unfold find_existing_row. rewrite bind_lift.
  destruct (dict_value_for_key _ _ _) as [kv|e]; [|done].
  destruct (decide _); rewrite bind_lift.
  - by destruct (to_string ctx kv).
  - by destruct (to_long ctx kv).
Qed.

Lemma first_key_match_found ctx object_schema primary_prop value realm kv i :
  dict_value_for_key ctx value (ObjectSchema.primary_key object_schema) = Done kv →
  first_key_match ctx primary_prop kv (backing_table realm object_schema) i →
  find_existing_row ctx object_schema primary_prop value realm
  = (Done (Some i), realm).
Proof.
  intros Hkv (r & Hr & Hmatch & Hmin).
  unfold find_existing_row. rewrite bind_lift, Hkv.
  unfold key_matches in *. destruct (decide _) as [Hty|Hty]; rewrite bind_lift.
  - rewrite Hmatch. unfold gets. f_equal. f_equal.
    apply find_first_string_Some. exists r. split_and!; [done..|].
    intros j r' Hr' Hlt Heq. apply (Hmin j r' Hr' Hlt). by rewrite Heq.
  - rewrite Hmatch. unfold gets. f_equal. f_equal.
    apply find_first_int_Some. exists r. split_and!; [done..|].
    intros j r' Hr' Hlt Heq. apply (Hmin j r' Hr' Hlt). by rewrite Heq.
Qed.

Lemma no_key_match_not_found ctx object_schema primary_prop value realm kv :
  dict_value_for_key ctx value (ObjectSchema.primary_key object_schema) = Done kv →
  key_converts ctx primary_prop kv →
  (∀ j r, backing_table realm object_schema !! j = Some r →
          ¬ key_matches ctx primary_prop kv r) →
  find_existing_row ctx object_schema primary_prop value realm = (Done None, realm).
Proof.
  intros Hkv Hconv Hnone.
  unfold find_existing_row. rewrite bind_lift, Hkv.
  unfold key_matches, key_converts in *.
  destruct (decide _) as [Hty|Hty]; rewrite bind_lift;
    destruct Hconv as [k Hk]; rewrite Hk; unfold gets; do 2 f_equal.
  - apply find_first_string_None. intros j r Hr Heq.
    apply (Hnone j r Hr). by rewrite Hk, Heq.
  - apply find_first_int_None. intros j r Hr Heq.
    apply (Hnone j r Hr). by rewrite Hk, Heq.
Qed.

(** Some matching row makes the search succeed at the first one. *)
Lemma key_match_first ctx primary_prop kv (t : Table) j r :
  t !! j = Some r → key_matches ctx primary_prop kv r →
  ∃ i, i ≤ j ∧ first_key_match ctx primary_prop kv t i.
Proof.
  intros Hr Hmatch. unfold first_key_match, key_matches in *.
  destruct (decide _) as [Hty|Hty].
  - destruct (find_first_string (Property.table_column primary_prop)
                (get_string r (Property.table_column primary_prop)) t)
      as [i|] eqn:Hfind.
    + apply find_first_string_Some in Hfind as (r' & Hr' & Heq & Hmin).
      exists i. split.
      * destruct (decide (i ≤ j)); [done|]. exfalso.
        apply (Hmin j r Hr); [lia|done].
      * exists r'. split_and!; [done|by rewrite Hmatch, Heq|].
        intros j' r'' Hr'' Hlt Hm. rewrite Hmatch in Hm.
        apply (Hmin j' r'' Hr'' Hlt). congruence.
    + exfalso. eapply find_first_string_None in Hfind; [|exact Hr]. done.
  - destruct (find_first_int (Property.table_column primary_prop)
                (get_int r (Property.table_column primary_prop)) t)
      as [i|] eqn:Hfind.
    + apply find_first_int_Some in Hfind as (r' & Hr' & Heq & Hmin).
      exists i. split.
      * destruct (decide (i ≤ j)); [done|]. exfalso.
        apply (Hmin j r Hr); [lia|done].
      * exists r'. split_and!; [done|by rewrite Hmatch, Heq|].
        intros j' r'' Hr'' Hlt Hm. rewrite Hmatch in Hm.
        apply (Hmin j' r'' Hr'' Hlt). congruence.
    + exfalso. eapply find_first_int_None in Hfind; [|exact Hr]. done.
Qed.

(** *** The three ways out of the first half of [create] *)

Lemma get_or_create_row_no_transaction ctx object_schema value try_update realm :
  is_in_transaction realm = false →
  get_or_create_row ctx object_schema value try_update realm
  = (Throw TransactionStateError, realm).
Proof. intros Htx. unfold get_or_create_row, bind, gets. by rewrite Htx. Qed.

Lemma get_or_create_row_no_primary_key ctx object_schema value try_update realm :
  is_in_transaction realm = true →
  primary_key_property object_schema = None →
  get_or_create_row ctx object_schema value try_update realm
  = (Done (length (backing_table realm object_schema), true),
     with_empty_row realm object_schema).
Proof.
  intros Htx Hpk. unfold get_or_create_row, bind, gets. by rewrite Htx, Hpk.
Qed.

Lemma get_or_create_row_search ctx object_schema primary_prop value try_update
    realm :
  is_in_transaction realm = true →
  primary_key_property object_schema = Some primary_prop →
  get_or_create_row ctx object_schema value try_update realm
  = match (find_existing_row ctx object_schema primary_prop value realm).1 with
    | Throw e => (Throw e, realm)
    | Done (Some i) =>
        if try_update then (Done (i, false), realm)
        else (Throw (DuplicateKeyError (ObjectSchema.name object_schema)), realm)
    | Done None =>
        (Done (length (backing_table realm object_schema), true),
         with_empty_row realm object_schema)
    end.
Proof.
  intros Htx Hpk.
  pose proof (find_existing_row_realm ctx object_schema primary_prop value realm)
    as Hsame.
  unfold get_or_create_row, bind, gets. rewrite Htx, Hpk. simpl.
  destruct (find_existing_row _ _ _ _ _) as [[[i|]|e] realm1];
    simpl in Hsame; subst realm1; simpl.
  - by destruct try_update.
  - by rewrite andb_false_r.
  - done.
Qed.

End Locate.

Section Create.
Context {ValueType ContextType : Type}.
Context {Accessor : NativeAccessor ValueType ContextType}.
Implicit Types (ctx : ContextType) (value : ValueType) (realm : Realm).

Lemma create_on_row ctx object_schema value try_update realm i created realm1 :
  get_or_create_row ctx object_schema value try_update realm
  = (Done (i, created), realm1) →
  create ctx object_schema value try_update realm
  = populate_row ctx object_schema value try_update i created realm1.
Proof. intros Hrow. unfold create. by rewrite (bind_done _ _ _ _ _ Hrow). Qed.

Lemma create_no_row ctx object_schema value try_update realm e realm1 :
  get_or_create_row ctx object_schema value try_update realm = (Throw e, realm1) →
  create ctx object_schema value try_update realm = (Throw e, realm1).
Proof. intros Hrow. unfold create. by rewrite (bind_throw _ _ _ _ _ Hrow). Qed.

(** A schema without primary key: a row is allocated. *)
Lemma create_without_primary_key ctx object_schema value try_update realm :
  is_in_transaction realm = true →
  primary_key_property object_schema = None →
  create ctx object_schema value try_update realm
  = populate_row ctx object_schema value try_update
      (length (backing_table realm object_schema)) true
      (with_empty_row realm object_schema).
Proof.
  intros Htx Hpk. apply create_on_row.
  by apply get_or_create_row_no_primary_key.
Qed.

(** A matching row and no upsert: the duplicate is refused. *)
Lemma create_refuses_duplicate ctx object_schema primary_prop value realm kv i :
  is_in_transaction realm = true →
  primary_key_property object_schema = Some primary_prop →
  dict_value_for_key ctx value (ObjectSchema.primary_key object_schema) = Done kv →
  first_key_match ctx primary_prop kv (backing_table realm object_schema) i →
  create ctx object_schema value false realm
  = (Throw (DuplicateKeyError (ObjectSchema.name object_schema)), realm).
Proof.
  intros Htx Hpk Hkv Hfirst. apply create_no_row.
  rewrite (get_or_create_row_search _ _ primary_prop) by done.
  by rewrite (first_key_match_found _ _ _ _ _ kv i).
Qed.

(** A matching row and upsert: the row is populated where it is. *)
Lemma create_updates_match ctx object_schema primary_prop value realm kv i :
  is_in_transaction realm = true →
  primary_key_property object_schema = Some primary_prop →
  dict_value_for_key ctx value (ObjectSchema.primary_key object_schema) = Done kv →
  first_key_match ctx primary_prop kv (backing_table realm object_schema) i →
  create ctx object_schema value true realm
  = populate_row ctx object_schema value true i false realm.
Proof.
  intros Htx Hpk Hkv Hfirst. apply create_on_row.
  rewrite (get_or_create_row_search _ _ primary_prop) by done.
  by rewrite (first_key_match_found _ _ _ _ _ kv i).
Qed.

(** No matching row: a row is allocated. *)
Lemma create_allocates_without_match ctx object_schema primary_prop value
    try_update realm kv :
  is_in_transaction realm = true →
  primary_key_property object_schema = Some primary_prop →
  dict_value_for_key ctx value (ObjectSchema.primary_key object_schema) = Done kv →
  key_converts ctx primary_prop kv →
  (∀ j r, backing_table realm object_schema !! j = Some r →
          ¬ key_matches ctx primary_prop kv r) →
  create ctx object_schema value try_update realm
  = populate_row ctx object_schema value try_update
      (length (backing_table realm object_schema)) true
      (with_empty_row realm object_schema).
Proof.
  intros Htx Hpk Hkv Hconv Hnone. apply create_on_row.
  rewrite (get_or_create_row_search _ _ primary_prop) by done.
  by rewrite (no_key_match_not_found _ _ _ _ _ kv).
Qed.

(** C2: when the table holds a row whose primary key column matches
    the key taken from the input, [create] without upsert throws the
    duplicate-key error and returns the realm exactly as it received
    it: no row is added and no cell is written. *)
Theorem create_duplicate_key ctx object_schema primary_prop value realm kv j r :
  is_in_transaction realm = true →
  primary_key_property object_schema = Some primary_prop →
  dict_value_for_key ctx value (ObjectSchema.primary_key object_schema) = Done kv →
  backing_table realm object_schema !! j = Some r →
  key_matches ctx primary_prop kv r →
  create ctx object_schema value false realm
  = (Throw (DuplicateKeyError (ObjectSchema.name object_schema)), realm).
Proof.
  intros Htx Hpk Hkv Hr Hmatch.
  destruct (key_match_first ctx primary_prop kv _ j r Hr Hmatch) as (i & _ & Hfirst).
  by eapply create_refuses_duplicate.
Qed.

End Create.

Lemma create_duplicate_key_witness :
  create (Accessor := JSAccessor 1) sample_ctx Person
         (JSDict [("id", JSNumber 1); ("name", JSString "Bob")]) false sample_realm
  = (Throw (DuplicateKeyError "Person"), sample_realm).
Proof.
  apply (create_duplicate_key (Accessor := JSAccessor 1) sample_ctx Person
           person_id _ sample_realm (JSNumber 1) 0 ann);
    vm_compute; reflexivity.
Defined.

Section RowChoice.
Context {ValueType ContextType : Type}.
Context {Accessor : NativeAccessor ValueType ContextType}.
Implicit Types (ctx : ContextType) (value : ValueType) (realm : Realm).

(** The match is an equality of strings for a string key and an
    equality of integers otherwise. *)
Lemma key_matches_string ctx primary_prop kv key r :
  Property.type primary_prop = PropertyTypeString →
  to_string ctx kv = Done key →
  key_matches ctx primary_prop kv r
  ↔ get_string r (Property.table_column primary_prop) = key.
Proof.
  intros Hty Hkey. unfold key_matches. rewrite decide_True by done.
  rewrite Hkey. split; congruence.
Qed.

Lemma key_matches_int ctx primary_prop kv key r :
  Property.type primary_prop ≠ PropertyTypeString →
  to_long ctx kv = Done key →
  key_matches ctx primary_prop kv r
  ↔ get_int r (Property.table_column primary_prop) = key.
Proof.
  intros Hty Hkey. unfold key_matches. rewrite decide_False by done.
  rewrite Hkey. split; congruence.
Qed.

(** C5 (amended): in a transaction, [create] chooses its row as
    follows.  Without a primary key property it allocates a row.  With
    one, the key taken from the input is compared with the primary key
    column by equality of strings when the property has type string and
    by equality of integers when it has type int; on the first match
    the row is reused when upsert is allowed and the duplicate-key
    error is thrown, the realm unchanged, when it is not; without a
    match a row is allocated. *)
Theorem create_row_choice ctx object_schema value try_update realm :
  is_in_transaction realm = true →
  let t := backing_table realm object_schema in
  let in_new_row :=
    populate_row ctx object_schema value try_update (length t) true
                 (with_empty_row realm object_schema) in
  (primary_key_property object_schema = None →
     create ctx object_schema value try_update realm = in_new_row)
  ∧ ∀ primary_prop kv,
      primary_key_property object_schema = Some primary_prop →
      dict_value_for_key ctx value (ObjectSchema.primary_key object_schema)
      = Done kv →
      let column := Property.table_column primary_prop in
      (Property.type primary_prop = PropertyTypeString →
         ∀ key r, to_string ctx kv = Done key →
           key_matches ctx primary_prop kv r ↔ get_string r column = key)
      ∧ (Property.type primary_prop = PropertyTypeInt →
         ∀ key r, to_long ctx kv = Done key →
           key_matches ctx primary_prop kv r ↔ get_int r column = key)
      ∧ (∀ i, first_key_match ctx primary_prop kv t i →
           create ctx object_schema value try_update realm
           = if try_update
             then populate_row ctx object_schema value try_update i false realm
             else (Throw (DuplicateKeyError (ObjectSchema.name object_schema)),
                   realm))
      ∧ (key_converts ctx primary_prop kv →
         (∀ j r, t !! j = Some r → ¬ key_matches ctx primary_prop kv r) →
         create ctx object_schema value try_update realm = in_new_row).
Proof.
  intros Htx t in_new_row. split.
  - intros Hpk. by apply create_without_primary_key.
  - intros primary_prop kv Hpk Hkv column. split_and!.
    + intros Hty key r Hkey. by apply key_matches_string.
    + intros Hty key r Hkey. apply key_matches_int; [|done].
      by rewrite Hty.
    + intros i Hfirst. destruct try_update.
      * by eapply create_updates_match.
      * by eapply create_refuses_duplicate.
    + intros Hconv Hnone. by eapply create_allocates_without_match.
Qed.

End RowChoice.

(** Bob has the key of no stored person: he gets row 1 of a table that
    then has two rows. *)
Lemma create_row_choice_witness :
  create (Accessor := JSAccessor 1) sample_ctx Person
         (JSDict [("id", JSNumber 2); ("name", JSString "Bob")]) true sample_realm
  = populate_row (Accessor := JSAccessor 1) sample_ctx Person
      (JSDict [("id", JSNumber 2); ("name", JSString "Bob")]) true
      1 true (with_empty_row sample_realm Person).
Proof.
  refine (proj2 (proj2 (proj2 (proj2
    (create_row_choice (Accessor := JSAccessor 1) sample_ctx Person
       (JSDict [("id", JSNumber 2); ("name", JSString "Bob")]) true sample_realm
       eq_refl) person_id (JSNumber 2) eq_refl eq_refl))) _ _).
  - vm_compute. by exists 2%Z.
  - intros [|[|j]] r Hr; vm_compute in Hr; [|done..].
    injection Hr as <-. vm_compute. discriminate.
Defined.

(** Ann's key is stored and upsert is not allowed: no row is reused and
    none is allocated; [create] throws and the realm keeps its single
    row. *)
Lemma duplicate_without_upsert_allocates_no_row :
  let value := JSDict [("id", JSNumber 1); ("name", JSString "Bob")] in
  first_key_match (Accessor := JSAccessor 1) sample_ctx person_id (JSNumber 1)
                  (backing_table sample_realm Person) 0
  ∧ create (Accessor := JSAccessor 1) sample_ctx Person value false sample_realm
    = (Throw (DuplicateKeyError "Person"), sample_realm)
  ∧ ¬ ∃ object realm',
        create (Accessor := JSAccessor 1) sample_ctx Person value false sample_realm
        = (Done object, realm').
Proof.
  assert (create (Accessor := JSAccessor 1) sample_ctx Person
            (JSDict [("id", JSNumber 1); ("name", JSString "Bob")]) false
            sample_realm
          = (Throw (DuplicateKeyError "Person"), sample_realm)) as Hthrows
    by (vm_compute; reflexivity).
  split_and!.
  - exists ann. split_and!; [done|vm_compute; reflexivity|]. intros j r' _ Hlt. lia.
  - exact Hthrows.
  - intros (object & realm' & Hdone). rewrite Hthrows in Hdone. discriminate.
Qed.

Section Populate.
Context {ValueType ContextType : Type}.
Context {Accessor : NativeAccessor ValueType ContextType}.
Implicit Types (ctx : ContextType) (value : ValueType) (realm : Realm).

Lemma populate_app ctx object value try_update created props1 props2 realm :
  populate ctx object value try_update created (props1 ++ props2) realm
  = (populate ctx object value try_update created props1 ;;;
     populate ctx object value try_update created props2) realm.
Proof.
  revert realm. induction props1 as [|prop props1 IH]; intros realm; simpl.
  - done.
  - unfold bind in *.
    destruct (populate_property _ _ _ _ _ prop realm) as [[[]|e] realm1];
      [|done].
    apply IH.
Qed.



(** C8: a write to a property of type any throws the unsupported-type
    error for every value, through [set_property_value_impl] and
    through [set_property_value], and leaves the realm as it was:
    nothing is stored. *)
Theorem set_any_unsupported ctx object prop value try_update realm :
  Property.type prop = PropertyTypeAny →
  set_property_value_impl ctx object prop value try_update realm
  = (Throw UnsupportedTypeError, realm)
  ∧ (property_for_name (object_schema object) (Property.name prop) = Some prop →
     set_property_value ctx object (Property.name prop) value try_update realm
     = (Throw UnsupportedTypeError, realm)).
Proof.
  intros Hty.
  assert (set_property_value_impl ctx object prop value try_update realm
          = (Throw UnsupportedTypeError, realm)) as Himpl.
  { unfold set_property_value_impl. by rewrite Hty. }
  split; [done|].
  intros Hfound. unfold set_property_value. by rewrite Hfound.
Qed.

End Populate.


Lemma set_any_unsupported_witness :
  set_property_value_impl (Accessor := JSAccessor 1) sample_ctx
    (mkObject Person ann_row) person_misc (JSNumber 7) false sample_realm
  = (Throw UnsupportedTypeError, sample_realm).
Proof.
  exact (proj1 (set_any_unsupported (Accessor := JSAccessor 1) sample_ctx
                  (mkObject Person ann_row) person_misc (JSNumber 7) false
                  sample_realm eq_refl)).
Defined.

(** ** Reads after writes *)

Lemma row_data_update_row row f realm row' :
  row_data (update_row row f realm).2 row'
  = if decide (row = row') then f <$> row_data realm row'
    else row_data realm row'.
Proof.
  destruct row as [tbl i], row' as [tbl' i'].
  unfold row_data, update_row, table_for_object_type. simpl.
  rewrite lookup_alter. destruct (decide (tbl = tbl')) as [->|Htbl].
  - destruct (read_group realm !! tbl') as [t|]; simpl.
    + rewrite list_lookup_alter. destruct (decide (i = i')) as [->|Hi].
      * by rewrite decide_True.
      * rewrite decide_False; [done|congruence].
    + by destruct (decide _).
  - rewrite decide_False; [done|congruence].
Qed.

Lemma stored_at_update_row_ne row f realm row' column :
  (row ≠ row' ∨ ∀ r : RowData, f r !! column = r !! column) →
  stored_at (update_row row f realm).2 row' column = stored_at realm row' column.
Proof.
  intros Hne. unfold stored_at. rewrite row_data_update_row.
  destruct (decide (row = row')) as [->|]; [|done].
  destruct Hne as [|Hf]; [done|].
  destruct (row_data realm row'); simpl; [|done]. by rewrite Hf.
Qed.

Lemma stored_at_set_cell_ne row column c realm row' column' :
  row ≠ row' ∨ column ≠ column' →
  stored_at (set_cell row column c realm).2 row' column'
  = stored_at realm row' column'.
Proof.
  intros Hne. apply stored_at_update_row_ne. destruct Hne as [|Hcol]; [by left|].
  right. intros r. by rewrite lookup_insert_ne.
Qed.

Lemma cell_at_set_cell row column c realm :
  is_Some (row_data realm row) →
  cell_at (set_cell row column c realm).2 row column = Some c.
Proof.
  intros [r Hr]. unfold cell_at, set_cell. rewrite row_data_update_row.
  rewrite decide_True, Hr by done. simpl. apply lookup_insert_eq.
Qed.

Lemma linklist_at_stored realm realm' row column :
  stored_at realm' row column = stored_at realm row column →
  linklist_at realm' row column = linklist_at realm row column.
Proof.
  unfold stored_at, linklist_at, get_linklist.
  destruct (row_data realm' row), (row_data realm row); simpl; try done.
  intros [= ->]. done.
Qed.

Lemma linklist_at_clear row column realm :
  is_Some (row_data realm row) →
  linklist_at (linkview_clear row column realm).2 row column = Some [].
Proof.
  intros [r Hr]. unfold linklist_at, linkview_clear, set_cell.
  rewrite row_data_update_row, decide_True, Hr by done. simpl.
  unfold get_linklist. by rewrite lookup_insert_eq.
Qed.

Lemma linklist_at_add row column target realm links :
  linklist_at realm row column = Some links →
  linklist_at (linkview_add row column target realm).2 row column
  = Some (links ++ [target]).
Proof.
  unfold linklist_at, linkview_add. rewrite row_data_update_row, decide_True by done.
  destruct (row_data realm row) as [r|]; simpl; [|done].
  intros [= <-]. unfold get_linklist at 1. by rewrite lookup_insert_eq.
Qed.

Section Links.
Context {ValueType ContextType : Type}.
Context {Accessor : NativeAccessor ValueType ContextType}.
Implicit Types (ctx : ContextType) (value : ValueType) (realm : Realm).

(** C7: for a property of type object, a value the accessor reports as
    null makes the write clear the link of the column, without error;
    any other value is resolved through [to_object_index] with the
    target type of the property and the upsert flag of the call, and
    the link of the column is set to the row it returns (a throw of
    the resolution is passed on, with the realm the resolution left).
    On an existing row the column then reads as the cleared link,
    respectively as the link to the returned row. *)
Theorem set_object_link ctx object prop value try_update realm :
  Property.type prop = PropertyTypeObject →
  let column := Property.table_column prop in
  let written := set_property_value_impl ctx object prop value try_update realm in
  (is_null ctx value = true →
     written = nullify_link (row object) column realm
     ∧ written.1 = Done tt
     ∧ (is_Some (row_data realm (row object)) →
        cell_at written.2 (row object) column = Some (CLink None)))
  ∧ (is_null ctx value = false →
     ∀ o realm1,
       to_object_index ctx value (Property.object_type prop) try_update realm
       = (o, realm1) →
       match o with
       | Done target =>
           written = set_link (row object) column target realm1
           ∧ written.1 = Done tt
           ∧ (is_Some (row_data realm1 (row object)) →
              cell_at written.2 (row object) column = Some (CLink (Some target)))
       | Throw e => written = (Throw e, realm1)
       end).
Proof.
  intros Hty column written. subst written column.
  unfold set_property_value_impl. rewrite Hty. split.
  - intros ->. split_and!; [done..|]. intros Hrow.
    by apply cell_at_set_cell.
  - intros -> o realm1 Hres. unfold bind. rewrite Hres. destruct o as [target|e].
    + split_and!; [done..|]. intros Hrow. by apply cell_at_set_cell.
    + done.
Qed.

End Links.

(** Ann's friend is set to the stored object of row 0. *)
Lemma set_object_link_witness :
  cell_at (set_property_value_impl (Accessor := JSAccessor 1) sample_ctx
             (mkObject Person ann_row) person_friend (JSRealmObject 0) false
             sample_realm).2
          ann_row 2
  = Some (CLink (Some 0)).
Proof.
  refine (proj2 (proj2 (proj2
    (set_object_link (Accessor := JSAccessor 1) sample_ctx
       (mkObject Person ann_row) person_friend (JSRealmObject 0) false
       sample_realm eq_refl) eq_refl (Done 0) sample_realm eq_refl)) _).
  vm_compute. eauto.
Defined.

Lemma linkview_add_result row column target realm realm' :
  linkview_add row column target realm = (Done tt, realm') →
  realm' = (linkview_add row column target realm).2.
Proof. intros Hadd. by rewrite Hadd. Qed.

Section ArrayLinks.
Context {ValueType ContextType : Type}.
Context {Accessor : NativeAccessor ValueType ContextType}.
Implicit Types (ctx : ContextType) (value : ValueType) (realm : Realm).

(** The loop over [k + m] elements is the loop over the first [k]
    followed by the loop over the next [m]. *)
Lemma add_links_app ctx row column value object_type try_update k m :
  ∀ i realm,
    add_links ctx row column value object_type try_update i (k + m) realm
    = (add_links ctx row column value object_type try_update i k ;;;
       add_links ctx row column value object_type try_update (i + k) m) realm.
Proof.
  induction k as [|k IH]; intros i realm.
  - simpl. unfold bind, ret. by rewrite Nat.add_0_r.
  - simpl. unfold bind.
    destruct (lift (array_value_at_index ctx value i) realm)
      as [[element|e] realm0]; [|done].
    destruct (to_object_index ctx element object_type try_update realm0)
      as [[target|e] realm1]; [|done].
    destruct (linkview_add row column target realm1) as [[[]|e] realm2]; [|done].
    rewrite IH. unfold bind. by replace (S i + k) with (i + S k) by lia.
Qed.

Lemma add_links_spares_app ctx row column value object_type try_update
    wrow wcolumn k m :
  ∀ i realm realm_k,
    add_links_spares ctx row column value object_type try_update wrow wcolumn
                     i (k + m) realm →
    add_links ctx row column value object_type try_update i k realm
    = (Done tt, realm_k) →
    add_links_spares ctx row column value object_type try_update wrow wcolumn
                     i k realm
    ∧ add_links_spares ctx row column value object_type try_update wrow wcolumn
                       (i + k) m realm_k.
Proof.
  induction k as [|k IH]; intros i realm realm_k Hspares Hrun.
  - injection Hrun as <-. by rewrite Nat.add_0_r.
  - simpl in *. rewrite bind_lift in Hrun.
    destruct (array_value_at_index ctx value i) as [element|e]; [|done].
    unfold bind at 1 in Hrun.
    destruct (to_object_index ctx element object_type try_update realm)
      as [[target|e] realm1]; [|done].
    destruct Hspares as [Hstep Hspares].
    apply bind_inv in Hrun as [([] & realm2 & Hadd & Hrun)|(e & Hadd & _)];
      [|discriminate Hadd].
    apply linkview_add_result in Hadd as ->.
    destruct (IH _ _ _ Hspares Hrun) as [Hfirst Hrest].
    split; [done|]. by replace (i + S k) with (S i + k) by lia.
Qed.

(** The loop over the elements, when the resolutions of the run leave
    the link list alone: the list grows by the targets of the elements
    processed, in order; a throw leaves the targets of the elements
    before the one that failed. *)
Lemma add_links_run ctx row column value object_type try_update n :
  ∀ i realm links o realm',
    add_links_spares ctx row column value object_type try_update row column
                     i n realm →
    linklist_at realm row column = Some links →
    add_links ctx row column value object_type try_update i n realm = (o, realm') →
    ∃ targets,
      linklist_at realm' row column = Some (links ++ targets)
      ∧ (∀ k target, targets !! k = Some target →
           resolves_to ctx value object_type try_update (i + k) target)
      ∧ match o with
        | Done _ => length targets = n
        | Throw e => length targets < n
        end.
Proof.
  induction n as [|n IH]; intros i realm links o realm' Hspares Hlinks Hrun.
  - simpl in Hrun. injection Hrun as <- <-. exists []. rewrite app_nil_r.
    split_and!; [done| |done]. intros k target Hk. by rewrite lookup_nil in Hk.
  - simpl in Hrun, Hspares. rewrite bind_lift in Hrun.
    destruct (array_value_at_index ctx value i) as [element|e] eqn:Helement.
    2:{ injection Hrun as <- <-. exists []. rewrite app_nil_r. simpl.
        split_and!; [done| |lia].
        intros k target Hk. by rewrite lookup_nil in Hk. }
    unfold bind at 1 in Hrun.
    destruct (to_object_index ctx element object_type try_update realm)
      as [[target|e] realm1] eqn:Hres; destruct Hspares as [Hstep Hspares].
    2:{ injection Hrun as <- <-. exists []. rewrite app_nil_r. simpl. split_and!.
        - rewrite <- Hlinks. by apply linklist_at_stored.
        - intros k target Hk. by rewrite lookup_nil in Hk.
        - lia. }
    apply bind_inv in Hrun as [([] & realm2 & Hadd & Hrun)|(e & Hadd & _)];
      [|discriminate Hadd].
    apply linkview_add_result in Hadd as ->.
    assert (linklist_at (linkview_add row column target realm1).2 row column
            = Some (links ++ [target])) as Hlinks2.
    { apply linklist_at_add. rewrite <- Hlinks. by apply linklist_at_stored. }
    destruct (IH (S i) _ (links ++ [target]) o realm' Hspares Hlinks2 Hrun)
      as (targets & Hfinal & Hresolved & Hout).
    exists (target :: targets). split_and!.
    + by rewrite Hfinal, <- app_assoc.
    + intros [|k] target' Hk; simpl in Hk.
      * injection Hk as <-. rewrite Nat.add_0_r. exists element, realm, realm1.
        done.
      * replace (i + S k) with (S i + k) by lia. by apply Hresolved.
    + destruct o as [[]|e]; simpl; lia.
Qed.

(** An element that fails when the loop comes to it stops the loop. *)
Lemma add_links_stops ctx row column value object_type try_update i m
    realm e realm' :
  element_fails ctx value object_type try_update i realm e realm' →
  add_links ctx row column value object_type try_update i (S m) realm
  = (Throw e, realm').
Proof.
  intros [[Hfetch ->]|(element & Hfetch & Hres)]; simpl; rewrite bind_lift, Hfetch.
  - done.
  - unfold bind at 1. by rewrite Hres.
Qed.

(** The write of an array is the clearing of the list followed by the
    loop over the elements. *)
Lemma set_array_steps ctx object prop value try_update realm :
  Property.type prop = PropertyTypeArray →
  set_property_value_impl ctx object prop value try_update realm
  = match array_size ctx value with
    | Done n =>
        add_links ctx (row object) (Property.table_column prop) value
          (Property.object_type prop) try_update 0 n
          (linkview_clear (row object) (Property.table_column prop) realm).2
    | Throw e =>
        (Throw e,
         (linkview_clear (row object) (Property.table_column prop) realm).2)
    end.
Proof.
  intros Hty. unfold set_property_value_impl. rewrite Hty.
  unfold bind at 1. simpl. rewrite bind_lift. by destruct (array_size ctx value).
Qed.

(** C4 (amended): for a property of type array, the write of an array
    of [n] elements is the clearing of the link list of the column (on
    an existing row the list is then empty, whatever it held) followed,
    for the indices 0 to n-1 in order, by the resolution of the element
    with the target type of the property and the upsert flag of the call
    and the appending of the row returned.  When the write returns and
    the resolutions it performed each left that link list as they found
    it, the list holds exactly these [n] links in input order (none when
    [n] is 0), and nothing of its former contents. *)
Theorem set_array_links ctx object prop value try_update realm n :
  Property.type prop = PropertyTypeArray →
  array_size ctx value = Done n →
  let column := Property.table_column prop in
  let cleared := (linkview_clear (row object) column realm).2 in
  set_property_value_impl ctx object prop value try_update realm
  = add_links ctx (row object) column value (Property.object_type prop)
              try_update 0 n cleared
  ∧ (is_Some (row_data realm (row object)) →
     linklist_at cleared (row object) column = Some [])
  ∧ ∀ realm',
      set_property_value_impl ctx object prop value try_update realm
      = (Done tt, realm') →
      is_Some (row_data realm (row object)) →
      add_links_spares ctx (row object) column value (Property.object_type prop)
                       try_update (row object) column 0 n cleared →
      ∃ targets,
        length targets = n
        ∧ linklist_at realm' (row object) column = Some targets
        ∧ ∀ k target, targets !! k = Some target →
            resolves_to ctx value (Property.object_type prop) try_update k target.
Proof.
  intros Hty Hsize column cleared.
  pose proof (set_array_steps ctx object prop value try_update realm Hty) as Hsteps.
  rewrite Hsize in Hsteps. split_and!.
  - exact Hsteps.
  - apply linklist_at_clear.
  - intros realm' Hrun Hrow Hspares. rewrite Hsteps in Hrun.
    destruct (add_links_run _ _ _ _ _ _ _ _ _ [] _ _ Hspares
                (linklist_at_clear _ _ _ Hrow) Hrun)
      as (targets & Hfinal & Hresolved & Hlen).
    exists targets. done.
Qed.

(** C10 (amended): the write of an array is not atomic.  The link list
    of the column is cleared before the array is measured and before any
    element is fetched, so a throw of [array_size] is passed on with the
    list cleared.  When the loop has processed the elements 0 to k-1 and
    fetching or resolving element [k] throws, the write throws that
    error there, with the realm as that failure left it: the former
    contents are gone and, when the resolutions the write performed each
    left that link list as they found it, the list holds exactly the [k]
    links of the elements 0 to k-1, in input order. *)
Theorem set_array_links_failure ctx object prop value try_update realm :
  Property.type prop = PropertyTypeArray →
  let column := Property.table_column prop in
  let cleared := (linkview_clear (row object) column realm).2 in
  (∀ e, array_size ctx value = Throw e →
        set_property_value_impl ctx object prop value try_update realm
        = (Throw e, cleared))
  ∧ (is_Some (row_data realm (row object)) →
     linklist_at cleared (row object) column = Some [])
  ∧ ∀ n k realm_k e realm_f,
      array_size ctx value = Done n →
      k < n →
      add_links ctx (row object) column value (Property.object_type prop)
                try_update 0 k cleared
      = (Done tt, realm_k) →
      element_fails ctx value (Property.object_type prop) try_update k
                    realm_k e realm_f →
      set_property_value_impl ctx object prop value try_update realm
      = (Throw e, realm_f)
      ∧ (is_Some (row_data realm (row object)) →
         add_links_spares ctx (row object) column value
           (Property.object_type prop) try_update (row object) column 0 n
           cleared →
         ∃ targets,
           length targets = k
           ∧ linklist_at realm_f (row object) column = Some targets
           ∧ ∀ j target, targets !! j = Some target →
               resolves_to ctx value (Property.object_type prop) try_update
                           j target).
Proof.
  intros Hty column cleared.
  pose proof (set_array_steps ctx object prop value try_update realm Hty) as Hsteps.
  split_and!.
  - intros e Hsize. by rewrite Hsize in Hsteps.
  - apply linklist_at_clear.
  - intros n k realm_k e realm_f Hsize Hlt Hfirst Hfails.
    rewrite Hsize in Hsteps.
    replace n with (k + S (n - S k)) in * by lia.
    assert (add_links ctx (row object) column value (Property.object_type prop)
              try_update 0 (k + S (n - S k)) cleared
            = (Throw e, realm_f)) as Hrun.
    { rewrite add_links_app, (bind_done _ _ _ _ _ Hfirst). simpl (0 + k).
      by apply add_links_stops. }
    split; [by rewrite Hsteps|].
    intros Hrow Hspares.
    destruct (add_links_spares_app _ _ _ _ _ _ _ _ _ _ _ _ _ Hspares Hfirst)
      as [Hspares_k Hspares_rest].
    destruct (add_links_run _ _ _ _ _ _ _ _ _ [] _ _ Hspares_k
                (linklist_at_clear _ _ _ Hrow) Hfirst)
      as (targets & Hfinal & Hresolved & Hlen).
    exists targets. split_and!; [done| |done].
    simpl in Hfinal. rewrite <- Hfinal. simpl in Hspares_rest.
    destruct Hfails as [[Hfetch ->]|(element & Hfetch & Hres)]; [done|].
    rewrite Hfetch, Hres in Hspares_rest.
    apply linklist_at_stored. by destruct Hspares_rest.
Qed.

End ArrayLinks.

(** Ann's friends are replaced by Bob, who is created on row 1, and by
    the stored row 0: the creation of Bob does not touch her list. *)
Lemma set_array_links_witness :
  let bob := JSDict [("id", JSNumber 2); ("name", JSString "Bob");
                     ("friends", JSArray [])] in
  let value := JSArray [bob; JSRealmObject 0] in
  ∃ targets,
    length targets = 2
    ∧ linklist_at
        (set_property_value_impl (Accessor := JSAccessor 1) sample_ctx
           (mkObject Person ann_row) person_friends value false sample_realm).2
        ann_row 3
      = Some targets
    ∧ ∀ k target, targets !! k = Some target →
        resolves_to (Accessor := JSAccessor 1) sample_ctx value "Person" false
                    k target.
Proof.
  intros bob value.
  refine (proj2 (proj2 (set_array_links (Accessor := JSAccessor 1) sample_ctx
            (mkObject Person ann_row) person_friends value false sample_realm 2
            eq_refl eq_refl)) _ _ _ _).
  - vm_compute. reflexivity.
  - vm_compute. eauto.
  - vm_compute. repeat split.
Defined.

(** Two elements that each upsert Ann herself with an empty list of
    friends: the write returns, and one link is stored, not two. *)
Lemma nested_upsert_drops_links :
  let self := JSDict [("id", JSNumber 1); ("friends", JSArray [])] in
  let value := JSArray [self; self] in
  array_size (NativeAccessor := JSAccessor 2) sample_ctx value = Done 2
  ∧ ∃ realm',
      set_property_value_impl (Accessor := JSAccessor 2) sample_ctx
        (mkObject Person ann_row) person_friends value true sample_realm
      = (Done tt, realm')
      ∧ linklist_at realm' ann_row 3 = Some [0].
Proof.
  split; [reflexivity|]. eexists. split; vm_compute; reflexivity.
Qed.

(** Bob is created and linked, then the second element is not an
    object: the write throws at index 1 and leaves the link to Bob. *)
Lemma set_array_links_failure_witness :
  let bob := JSDict [("id", JSNumber 2); ("name", JSString "Bob");
                     ("friends", JSArray [])] in
  let value := JSArray [bob; JSNumber 5] in
  let e := RuntimeError "Value is not an object" in
  let realm_f :=
    (add_links (Accessor := JSAccessor 1) sample_ctx ann_row 3 value "Person"
               false 0 1 (linkview_clear ann_row 3 sample_realm).2).2 in
  set_property_value_impl (Accessor := JSAccessor 1) sample_ctx
    (mkObject Person ann_row) person_friends value false sample_realm
  = (Throw e, realm_f)
  ∧ ∃ targets,
      length targets = 1
      ∧ linklist_at realm_f ann_row 3 = Some targets
      ∧ ∀ j target, targets !! j = Some target →
          resolves_to (Accessor := JSAccessor 1) sample_ctx value "Person" false
                      j target.
Proof.
  intros bob value e realm_f.
  destruct (proj2 (proj2 (set_array_links_failure (Accessor := JSAccessor 1)
              sample_ctx (mkObject Person ann_row) person_friends value false
              sample_realm eq_refl)) 2 1 realm_f e realm_f)
    as [Hthrows Hlinks].
  - reflexivity.
  - lia.
  - vm_compute. reflexivity.
  - right. exists (JSNumber 5). split; reflexivity.
  - split; [exact Hthrows|]. apply Hlinks.
    + vm_compute. eauto.
    + vm_compute. repeat split.
Defined.

(** The first element is stored; the second upserts Ann herself with a
    list of friends that cannot be resolved.  The write stops at index 1
    and the list is empty: the link of element 0 is gone. *)
Lemma nested_upsert_failure_drops_links :
  let broken := JSDict [("id", JSNumber 1); ("friends", JSArray [JSNull])] in
  let value := JSArray [JSRealmObject 0; broken] in
  ∃ e realm',
    set_property_value_impl (Accessor := JSAccessor 2) sample_ctx
      (mkObject Person ann_row) person_friends value true sample_realm
    = (Throw e, realm')
    ∧ resolves_to (Accessor := JSAccessor 2) sample_ctx value "Person" true 0 0
    ∧ fails_at (Accessor := JSAccessor 2) sample_ctx value "Person" true 1 e
    ∧ linklist_at realm' ann_row 3 = Some [].
Proof.
  intros broken value. eexists _, _. split_and!.
  - vm_compute. reflexivity.
  - exists (JSRealmObject 0), sample_realm, sample_realm. done.
  - right. exists broken, sample_realm. eexists. split; [done|].
    vm_compute. reflexivity.
  - vm_compute. reflexivity.
Qed.

Section Update.
Context {ValueType ContextType : Type}.
Context {Accessor : NativeAccessor ValueType ContextType}.
Implicit Types (ctx : ContextType) (value : ValueType) (realm : Realm).

Lemma set_cell_run row column c realm o realm' :
  set_cell row column c realm = (o, realm') →
  o = Done tt ∧ realm' = (set_cell row column c realm).2.
Proof. intros Hrun. rewrite Hrun. by injection Hrun as <- _. Qed.

Lemma linkview_add_run row column target realm o realm' :
  linkview_add row column target realm = (o, realm') →
  o = Done tt ∧ realm' = (linkview_add row column target realm).2.
Proof. intros Hrun. rewrite Hrun. by injection Hrun as <- _. Qed.

(** A converted scalar written to its column leaves the other columns
    and the other rows alone. *)
Lemma write_converted_keeps {A} (conversion : outcome A) (cell : A → Cell)
    row column realm o realm' row' column' :
  row ≠ row' ∨ column ≠ column' →
  (let! v := lift conversion in set_cell row column (cell v)) realm = (o, realm') →
  stored_at realm' row' column' = stored_at realm row' column'.
Proof.
  intros Hne Hrun. rewrite bind_lift in Hrun. destruct conversion as [v|e].
  - apply set_cell_run in Hrun as [_ ->]. by apply stored_at_set_cell_ne.
  - by injection Hrun as _ <-.
Qed.

(** The loop over the elements leaves a cell alone that is not the one
    it appends to and that its resolutions leave alone. *)
Lemma add_links_spared ctx row column value object_type try_update wrow wcolumn n :
  row ≠ wrow ∨ column ≠ wcolumn →
  ∀ i realm o realm',
    add_links_spares ctx row column value object_type try_update wrow wcolumn
                     i n realm →
    add_links ctx row column value object_type try_update i n realm = (o, realm') →
    stored_at realm' wrow wcolumn = stored_at realm wrow wcolumn.
Proof.
  intros Hne. induction n as [|n IH]; intros i realm o realm' Hspares Hrun.
  - by injection Hrun as _ <-.
  - simpl in Hrun, Hspares. rewrite bind_lift in Hrun.
    destruct (array_value_at_index ctx value i) as [element|e];
      [|by injection Hrun as _ <-].
    unfold bind at 1 in Hrun.
    destruct (to_object_index ctx element object_type try_update realm)
      as [[target|e] realm1]; destruct Hspares as [Hstep Hspares];
      [|by injection Hrun as _ <-].
    apply bind_inv in Hrun as [([] & realm2 & Hadd & Hrun)|(e & Hadd & _)];
      [|discriminate Hadd].
    apply linkview_add_run in Hadd as [_ ->].
    transitivity (stored_at (linkview_add row column target realm1).2
                            wrow wcolumn);
      [exact (IH _ _ _ _ Hspares Hrun)|].
    unfold linkview_add. rewrite stored_at_update_row_ne; [done|].
    destruct Hne as [|Hcol]; [by left|]. right. intros r.
    by rewrite lookup_insert_ne.
Qed.

(** A property write touches its own column of its own row, and what
    the resolutions it performs touch. *)
Lemma write_spared ctx object prop value try_update realm o realm' wrow wcolumn :
  write_spares ctx object prop value try_update wrow wcolumn realm →
  row object ≠ wrow ∨ Property.table_column prop ≠ wcolumn →
  set_property_value_impl ctx object prop value try_update realm = (o, realm') →
  stored_at realm' wrow wcolumn = stored_at realm wrow wcolumn.
Proof.
  intros Hspares Hne Hrun.
  unfold set_property_value_impl in Hrun. unfold write_spares in Hspares.
  destruct (Property.type prop);
    try (by eapply (write_converted_keeps _ _ _ _ _ _ _ _ _ Hne Hrun)).
  - destruct (is_null ctx value).
    + apply set_cell_run in Hrun as [_ ->]. by apply stored_at_set_cell_ne.
    + unfold bind in Hrun.
      destruct (to_object_index ctx value (Property.object_type prop) try_update
                                realm) as [[target|e] realm1]; simpl in Hspares.
      * apply set_cell_run in Hrun as [_ ->].
        by rewrite stored_at_set_cell_ne.
      * by injection Hrun as _ <-.
  - apply bind_inv in Hrun as [([] & realm1 & Hclear & Hrun)|(e & Hclear & _)];
      [|discriminate Hclear].
    apply set_cell_run in Hclear as [_ ->].
    rewrite bind_lift in Hrun. destruct (array_size ctx value) as [n|e].
    + rewrite (add_links_spared _ _ _ _ _ _ _ _ _ Hne _ _ _ _ Hspares Hrun).
      by apply stored_at_set_cell_ne.
    + injection Hrun as _ <-. by apply stored_at_set_cell_ne.
Qed.

(** On the update path a property that is the primary key or has no
    entry in the input is passed over. *)
Lemma populate_property_skipped ctx object value try_update prop realm :
  ¬ updated_by ctx value prop →
  populate_property ctx object value try_update false prop realm
  = (Done tt, realm).
Proof.
  intros Hskip. unfold populate_property, updated_by in *. simpl.
  destruct (Property.is_primary prop); [done|]. simpl.
  destruct (dict_has_value_for_key ctx value (Property.name prop)); [|done].
  by destruct Hskip.
Qed.

Lemma populate_property_updated ctx object value try_update prop realm :
  updated_by ctx value prop →
  populate_property ctx object value try_update false prop realm
  = (let! v := lift (dict_value_for_key ctx value (Property.name prop)) in
     set_property_value_impl ctx object prop v try_update) realm.
Proof.
  intros [Hprimary Hhas]. unfold populate_property. by rewrite Hprimary, Hhas.
Qed.

Lemma populate_update_filter ctx object value try_update props realm :
  populate ctx object value try_update false props realm
  = populate ctx object value try_update false
             (filter (updated_by ctx value) props) realm.
Proof.
  revert realm. induction props as [|prop props IH]; intros realm; [done|].
  rewrite filter_cons. destruct (decide (updated_by ctx value prop)) as [Hup|Hskip].
  - simpl. unfold bind.
    destruct (populate_property _ _ _ _ _ prop realm) as [[[]|e] realm1];
      [apply IH|done].
  - simpl. unfold bind at 1.
    by rewrite (populate_property_skipped _ _ _ _ _ _ Hskip).
Qed.

(** The update of a row leaves a column alone that no updated property
    writes and that the resolutions of the run leave alone. *)
Lemma populate_update_spared ctx object value try_update column props :
  (∀ q, q ∈ props → updated_by ctx value q → Property.table_column q ≠ column) →
  ∀ realm o realm',
    populate_spares ctx object value try_update false props (row object) column
                    realm →
    populate ctx object value try_update false props realm = (o, realm') →
    stored_at realm' (row object) column = stored_at realm (row object) column.
Proof.
  induction props as [|prop props IH]; intros Hcols realm o realm' Hspares Hrun.
  - by injection Hrun as _ <-.
  - simpl in Hrun, Hspares. destruct Hspares as [Hturn Hspares].
    assert (∀ o1 realm1,
              populate_property ctx object value try_update false prop realm
              = (o1, realm1) →
              stored_at realm1 (row object) column
              = stored_at realm (row object) column) as Hstep.
    { intros o1 realm1 Hprop.
      destruct (decide (updated_by ctx value prop)) as [Hup|Hskip].
      - rewrite populate_property_updated in Hprop by done.
        rewrite bind_lift in Hprop. unfold turn_spares in Hturn.
        destruct Hup as [Hprimary Hhas]. rewrite Hprimary, Hhas in Hturn.
        simpl in Hturn.
        destruct (dict_value_for_key ctx value (Property.name prop)) as [v|e];
          [|by injection Hprop as _ <-].
        eapply write_spared; [done| |done].
        right. apply Hcols; [left|done].
      - rewrite populate_property_skipped in Hprop by done.
        by injection Hprop as _ <-. }
    destruct (populate_property ctx object value try_update false prop realm)
      as [[[]|e] realm1] eqn:Hprop.
    + rewrite (bind_done _ _ _ _ _ Hprop) in Hrun.
      rewrite (IH (λ q Hq, Hcols q (list_elem_of_further _ _ _ Hq)) _ _ _
                  Hspares Hrun).
      by eapply Hstep.
    + rewrite (bind_throw _ _ _ _ _ Hprop) in Hrun. injection Hrun as _ <-.
      by eapply Hstep.
Qed.

(** C1 (amended): with a primary key whose value in the input matches
    a stored row, [create] with upsert populates that very row, from
    the realm as it received it (no row is allocated), and returns the
    object on it.  The population is that of the properties that are
    not the primary key and for which the input reports an entry; any
    other property is passed over without a write.  Hence, for a
    property without entry in the input, the column holds afterwards
    what it held before, as long as no other property of the schema
    shares its column and the resolutions of link values that this call
    performs ([to_object_index], each from the realm it is run in) do
    not themselves write that column of the row. *)
Theorem upsert_writes_entries_only ctx object_schema primary_prop value realm kv i :
  is_in_transaction realm = true →
  primary_key_property object_schema = Some primary_prop →
  dict_value_for_key ctx value (ObjectSchema.primary_key object_schema) = Done kv →
  first_key_match ctx primary_prop kv (backing_table realm object_schema) i →
  let object :=
    mkObject object_schema (mkRow (ObjectSchema.name object_schema) i) in
  create ctx object_schema value true realm
  = (populate ctx object value true false
       (filter (updated_by ctx value) (ObjectSchema.properties object_schema)) ;;;
     ret object) realm
  ∧ (∀ o realm', create ctx object_schema value true realm = (Done o, realm') →
       o = object)
  ∧ (∀ prop realm1, ¬ updated_by ctx value prop →
       populate_property ctx object value true false prop realm1
       = (Done tt, realm1))
  ∧ (∀ prop o realm',
       create ctx object_schema value true realm = (o, realm') →
       dict_has_value_for_key ctx value (Property.name prop) = false →
       (∀ q, q ∈ ObjectSchema.properties object_schema →
             Property.table_column q = Property.table_column prop →
             Property.name q = Property.name prop) →
       populate_spares ctx object value true false
         (ObjectSchema.properties object_schema)
         (row object) (Property.table_column prop) realm →
       stored_at realm' (row object) (Property.table_column prop)
       = stored_at realm (row object) (Property.table_column prop)).
Proof.
  intros Htx Hpk Hkv Hfirst object.
  assert (create ctx object_schema value true realm
          = (populate ctx object value true false
               (filter (updated_by ctx value)
                       (ObjectSchema.properties object_schema)) ;;;
             ret object) realm) as Hcreate.
  { rewrite (create_updates_match _ _ primary_prop _ _ kv i) by done.
    unfold populate_row, bind. by rewrite populate_update_filter. }
  split_and!.
  - exact Hcreate.
  - intros o realm' Hrun. rewrite Hcreate in Hrun.
    apply bind_inv in Hrun as [([] & realm1 & _ & Hret)|(e & _ & ?)]; [|done].
    by injection Hret as <- _.
  - intros prop realm1 Hskip. by apply populate_property_skipped.
  - intros prop o realm' Hrun Hhas Hcols Hspares.
    rewrite (create_updates_match _ _ primary_prop _ _ kv i) in Hrun by done.
    unfold populate_row in Hrun.
    assert (∀ o1 realm1,
              populate ctx object value true false
                       (ObjectSchema.properties object_schema) realm
              = (o1, realm1) →
              stored_at realm1 (row object) (Property.table_column prop)
              = stored_at realm (row object) (Property.table_column prop))
      as Hpopulate.
    { intros o1 realm1. apply populate_update_spared; [|done].
      intros q Hq [_ Hqhas] Hcol.
      apply Hcols in Hcol; [|done]. rewrite Hcol in Hqhas. congruence. }
    apply bind_inv in Hrun as [([] & realm1 & Hpop & Hret)|(e & Hpop & _)].
    + injection Hret as _ <-. by eapply Hpopulate.
    + by eapply Hpopulate.
Qed.

End Update.

(** Ann is upserted without a name and with a friend given as a
    dictionary: Bob, who is created on row 1.  His creation does not
    write her name, and her name stays. *)
Lemma upsert_writes_entries_only_witness :
  let value :=
    JSDict [("id", JSNumber 1);
            ("friend", JSDict [("id", JSNumber 2); ("name", JSString "Bob")])] in
  stored_at
    (create (Accessor := JSAccessor 1) sample_ctx Person value true sample_realm).2
    ann_row 1
  = stored_at sample_realm ann_row 1.
Proof.
  intros value.
  refine (proj2 (proj2 (proj2
    (upsert_writes_entries_only (Accessor := JSAccessor 1) sample_ctx Person
       person_id value sample_realm (JSNumber 1) 0 eq_refl eq_refl eq_refl _)))
    person_name
    (create (Accessor := JSAccessor 1) sample_ctx Person value true sample_realm).1
    _ _ eq_refl _ _).
  - exists ann. split_and!; [done|vm_compute; reflexivity|]. intros j r' _ Hlt. lia.
  - apply surjective_pairing.
  - intros q Hq Hcol. unfold Person in Hq. simpl in Hq. set_unfold in Hq.
    destruct Hq as [->|[->|[->|[->|[]]]]]; simpl in Hcol; try discriminate Hcol.
    reflexivity.
  - vm_compute. repeat split.
Defined.

(** Ann is upserted without a name, with a friend given as a dictionary
    that carries her own key and another name: the input has no entry
    "name", and her stored name changes. *)
Lemma nested_upsert_changes_omitted_property :
  let value :=
    JSDict [("id", JSNumber 1);
            ("friend", JSDict [("id", JSNumber 1); ("name", JSString "Bob")])] in
  first_key_match (Accessor := JSAccessor 2) sample_ctx person_id (JSNumber 1)
                  (backing_table sample_realm Person) 0
  ∧ dict_has_value_for_key (NativeAccessor := JSAccessor 2) sample_ctx value "name"
    = false
  ∧ stored_at sample_realm ann_row 1 = Some (Some (CString "Ann"))
  ∧ ∃ realm',
      create (Accessor := JSAccessor 2) sample_ctx Person value true sample_realm
      = (Done (mkObject Person ann_row), realm')
      ∧ stored_at realm' ann_row 1 = Some (Some (CString "Bob")).
Proof.
  intros value. split_and!.
  - exists ann. split_and!; [done|vm_compute; reflexivity|]. intros j r' _ Hlt. lia.
  - reflexivity.
  - vm_compute. reflexivity.
  - eexists. split; vm_compute; reflexivity.
Qed.

Section Names.
Context {ValueType ContextType : Type}.
Context {Accessor : NativeAccessor ValueType ContextType}.
Implicit Types (ctx : ContextType) (value : ValueType) (realm : Realm).

Lemma primary_key_property_Some schema primary_prop :
  primary_key_property schema = Some primary_prop →
  primary_prop ∈ ObjectSchema.properties schema
  ∧ Property.name primary_prop = ObjectSchema.primary_key schema.
Proof.
  unfold primary_key_property, property_for_name. rewrite fmap_Some.
  intros [[i p] [Hfind Hp]]. simpl in Hp. subst p.
  apply list_find_Some in Hfind as (Hi & Hname & _).
  split; [|done]. apply list_elem_of_lookup. eauto.
Qed.

(** Two inputs that agree on the entries named by the properties [props]. *)
Lemma populate_agree ctx object value1 value2 try_update created props :
  (∀ prop, prop ∈ props →
     dict_has_value_for_key ctx value1 (Property.name prop)
     = dict_has_value_for_key ctx value2 (Property.name prop)
     ∧ dict_value_for_key ctx value1 (Property.name prop)
       = dict_value_for_key ctx value2 (Property.name prop)) →
  ∀ realm,
    populate ctx object value1 try_update created props realm
    = populate ctx object value2 try_update created props realm.
Proof.
  induction props as [|prop props IH]; intros Hagree realm; [done|].
  simpl. unfold bind.
  assert (populate_property ctx object value1 try_update created prop realm
          = populate_property ctx object value2 try_update created prop realm)
    as ->.
  { unfold populate_property.
    destruct (Hagree prop) as [-> ->]; [left|done]. }
  destruct (populate_property _ _ _ _ _ prop realm) as [[[]|e] realm1]; [|done].
  apply IH. intros q Hq. apply Hagree. by right.
Qed.

Lemma get_or_create_row_agree ctx schema value1 value2 try_update realm :
  (∀ prop, prop ∈ ObjectSchema.properties schema →
     dict_value_for_key ctx value1 (Property.name prop)
     = dict_value_for_key ctx value2 (Property.name prop)) →
  get_or_create_row ctx schema value1 try_update realm
  = get_or_create_row ctx schema value2 try_update realm.
Proof.
  intros Hagree. unfold get_or_create_row.
  destruct (primary_key_property schema) as [primary_prop|] eqn:Hpk; [|done].
  apply primary_key_property_Some in Hpk as [Hin Hname].
  unfold find_existing_row. by rewrite <- Hname, (Hagree _ Hin).
Qed.

(** C6 (amended): [set_property_value] with a name that the schema of
    the object does not declare throws the unknown-property error,
    whatever the value, the upsert flag and the row, and leaves the
    realm as it was.  [create] does not check the names of the entries
    of its input: it asks the input for the names of the properties of
    the schema and for no other, so that two inputs that agree on these
    names are materialised alike, with the same outcome and the same
    realm, on the creation path as on the update path; an entry under a
    name unknown to the schema is not looked at. *)
Theorem unknown_property_names ctx schema :
  (∀ object prop_name value try_update realm,
     object_schema object = schema →
     property_for_name schema prop_name = None →
     set_property_value ctx object prop_name value try_update realm
     = (Throw (UnknownPropertyError prop_name (ObjectSchema.name schema)), realm))
  ∧ (∀ value1 value2 try_update realm,
       (∀ prop, prop ∈ ObjectSchema.properties schema →
          dict_has_value_for_key ctx value1 (Property.name prop)
          = dict_has_value_for_key ctx value2 (Property.name prop)
          ∧ dict_value_for_key ctx value1 (Property.name prop)
            = dict_value_for_key ctx value2 (Property.name prop)) →
       create ctx schema value1 try_update realm
       = create ctx schema value2 try_update realm).
Proof.
  split.
  - intros object prop_name value try_update realm <- Hnone.
    unfold set_property_value. by rewrite Hnone.
  - intros value1 value2 try_update realm Hagree. unfold create, bind.
    rewrite (get_or_create_row_agree ctx schema value1 value2)
      by (intros prop Hprop; by apply Hagree).
    destruct (get_or_create_row _ _ value2 _ _) as [[[i created]|e] realm1];
      [|done].
    by rewrite (populate_agree _ _ value1 value2).
Qed.

End Names.

(** An entry "bogus" makes no difference to the creation of Bob; written
    by name, it is refused. *)
Lemma unknown_property_names_witness :
  let with_bogus :=
    JSDict [("id", JSNumber 2); ("name", JSString "Bob"); ("bogus", JSNumber 7)] in
  let without := JSDict [("id", JSNumber 2); ("name", JSString "Bob")] in
  set_property_value (Accessor := JSAccessor 1) sample_ctx
    (mkObject Person ann_row) "bogus" (JSNumber 7) true sample_realm
  = (Throw (UnknownPropertyError "bogus" "Person"), sample_realm)
  ∧ create (Accessor := JSAccessor 1) sample_ctx Person with_bogus true sample_realm
    = create (Accessor := JSAccessor 1) sample_ctx Person without true sample_realm.
Proof.
  intros with_bogus without.
  destruct (unknown_property_names (Accessor := JSAccessor 1) sample_ctx Person)
    as [Hset Hcreate].
  split.
  - apply Hset; reflexivity.
  - apply Hcreate. intros prop Hprop. unfold Person in Hprop. simpl in Hprop.
    set_unfold in Hprop.
    destruct Hprop as [->|[->|[->|[->|[]]]]]; split; reflexivity.
Defined.

(** The input names a property "bogus" that a person does not have:
    [create] returns an object, when it creates the row as when it
    updates it. *)
Lemma create_ignores_unknown_entry :
  let bob :=
    JSDict [("id", JSNumber 2); ("name", JSString "Bob"); ("bogus", JSNumber 7)] in
  let ann' := JSDict [("id", JSNumber 1); ("bogus", JSNumber 7)] in
  property_for_name Person "bogus" = None
  ∧ dict_has_value_for_key (NativeAccessor := JSAccessor 1) sample_ctx bob "bogus"
    = true
  ∧ dict_has_value_for_key (NativeAccessor := JSAccessor 1) sample_ctx ann' "bogus"
    = true
  ∧ (∃ realm',
       create (Accessor := JSAccessor 1) sample_ctx Person bob false sample_realm
       = (Done (mkObject Person (mkRow "Person" 1)), realm'))
  ∧ create (Accessor := JSAccessor 1) sample_ctx Person ann' true sample_realm
    = (Done (mkObject Person ann_row), sample_realm).
Proof.
  intros bob ann'. split_and!; try (vm_compute; reflexivity).
  eexists. vm_compute. reflexivity.
Qed.

Section PrimaryKeyLookup.
Context {ValueType ContextType : Type}.
Implicit Types (ctx : ContextType) (value : ValueType) (realm : Realm).

(** C9: with a primary key property, the first half of [create] takes
    the key from the input by [dict_value_for_key] and converts it by
    [to_string] or [to_long]; it asks neither whether the input has the
    entry nor for a default.  Two accessors that agree on these three
    converters, however they answer [dict_has_value_for_key],
    [has_default_value_for_property] and [default_value_for_property],
    find the same row, and reach the same row, creation flag or error,
    for either value of the upsert flag.  When the key cannot be taken
    from the input or converted, [create] throws that error and leaves
    the realm as it was, whatever default is registered. *)
Theorem primary_key_from_input
    (A1 A2 : NativeAccessor ValueType ContextType)
    ctx schema primary_prop value try_update realm :
  (∀ c v k, dict_value_for_key (NativeAccessor := A1) c v k
            = dict_value_for_key (NativeAccessor := A2) c v k) →
  (∀ c v, to_string (NativeAccessor := A1) c v
          = to_string (NativeAccessor := A2) c v) →
  (∀ c v, to_long (NativeAccessor := A1) c v
          = to_long (NativeAccessor := A2) c v) →
  is_in_transaction realm = true →
  primary_key_property schema = Some primary_prop →
  find_existing_row (Accessor := A1) ctx schema primary_prop value realm
  = find_existing_row (Accessor := A2) ctx schema primary_prop value realm
  ∧ get_or_create_row (Accessor := A1) ctx schema value try_update realm
    = get_or_create_row (Accessor := A2) ctx schema value try_update realm
  ∧ (∀ e,
       dict_value_for_key (NativeAccessor := A1) ctx value
                          (ObjectSchema.primary_key schema) = Throw e →
       (find_existing_row (Accessor := A1) ctx schema primary_prop value realm).1
       = Throw e)
  ∧ (∀ e,
       (find_existing_row (Accessor := A1) ctx schema primary_prop value realm).1
       = Throw e →
       create (Accessor := A1) ctx schema value try_update realm = (Throw e, realm)
       ∧ create (Accessor := A2) ctx schema value try_update realm
         = (Throw e, realm)).
Proof.
  intros Hdict Hstring Hlong Htx Hpk.
  assert (find_existing_row (Accessor := A1) ctx schema primary_prop value realm
          = find_existing_row (Accessor := A2) ctx schema primary_prop value realm)
    as Hfind.
  { unfold find_existing_row. rewrite Hdict, !bind_lift.
    destruct (dict_value_for_key _ _ _) as [kv|e]; [|done].
    destruct (decide _); by rewrite ?Hstring, ?Hlong. }
  assert (get_or_create_row (Accessor := A1) ctx schema value try_update realm
          = get_or_create_row (Accessor := A2) ctx schema value try_update realm)
    as Hrow.
  { rewrite !(get_or_create_row_search _ _ primary_prop) by done.
    by rewrite Hfind. }
  split_and!; [done..| |].
  - intros e He. unfold find_existing_row. by rewrite bind_lift, He.
  - intros e He.
    assert (get_or_create_row (Accessor := A1) ctx schema value try_update realm
            = (Throw e, realm)) as Hthrow.
    { rewrite (get_or_create_row_search _ _ primary_prop) by done.
      by rewrite He. }
    split; apply create_no_row; [done|]. by rewrite <- Hrow.
Qed.

End PrimaryKeyLookup.

(** The input has no entry "id".  An accessor that reports a default for
    every property reaches the same failure on the key as the plain one:
    the default is not asked for. *)
Lemma primary_key_from_input_witness :
  let value := JSDict [("name", JSString "Bob")] in
  let A1 := JSAccessor 1 in
  let A2 :=
    with_presence (Accessor := JSAccessor 1)
      (λ _ _ _, false) (λ _ _ _, true) (λ _ _ _, Done (JSNumber 1)) in
  get_or_create_row (Accessor := A1) sample_ctx Person value true sample_realm
  = get_or_create_row (Accessor := A2) sample_ctx Person value true sample_realm
  ∧ create (Accessor := A2) sample_ctx Person value true sample_realm
    = (Throw (RuntimeError "Value is not a number"), sample_realm).
Proof.
  intros value A1 A2.
  destruct (primary_key_from_input A1 A2 sample_ctx Person person_id value true
              sample_realm) as (_ & Hrow & _ & Hthrow); try reflexivity.
  split; [exact Hrow|].
  apply (Hthrow (RuntimeError "Value is not a number")). reflexivity.
Defined.

(** ** Further properties of the materialiser and of the writer *)

Lemma table_with_empty_row realm schema object_type :
  table_for_object_type (read_group (with_empty_row realm schema)) object_type
  = if decide (ObjectSchema.name schema = object_type)
    then backing_table realm schema ++ [∅]
    else table_for_object_type (read_group realm) object_type.
Proof.
  unfold with_empty_row, table_for_object_type. simpl.
  rewrite lookup_insert. by destruct (decide _).
Qed.

Lemma row_data_with_empty_row realm schema row :
  row_data (with_empty_row realm schema) row
  = if decide (row = mkRow (ObjectSchema.name schema)
                           (length (backing_table realm schema)))
    then Some ∅
    else row_data realm row.
Proof.
  destruct row as [tbl i]. unfold row_data.
  rewrite table_with_empty_row. simpl.
  destruct (decide (ObjectSchema.name schema = tbl)) as [<-|Htbl].
  - fold (backing_table realm schema).
    destruct (decide (i = length (backing_table realm schema))) as [->|Hi].
    + rewrite decide_True by done. by rewrite list_lookup_middle.
    + rewrite decide_False by congruence.
      destruct (decide (i < length (backing_table realm schema))).
      * by rewrite lookup_app_l.
      * rewrite !lookup_ge_None_2; [done|lia|rewrite length_app; simpl; lia].
  - rewrite decide_False; [done|congruence].
Qed.

Section Allocation.
Context {ValueType ContextType : Type}.
Context {Accessor : NativeAccessor ValueType ContextType}.
Implicit Types (ctx : ContextType) (value : ValueType) (realm : Realm).

Lemma find_existing_row_in_table ctx schema primary_prop value realm i :
  (find_existing_row ctx schema primary_prop value realm).1 = Done (Some i) →
  i < length (backing_table realm schema).
Proof.
  unfold find_existing_row. rewrite bind_lift.
  destruct (dict_value_for_key _ _ _) as [kv|e]; [|done].
  destruct (decide _); rewrite bind_lift.
  - destruct (to_string ctx kv) as [key|e']; [|done]. simpl. intros [= Hfind].
    apply find_first_string_Some in Hfind as (r & Hr & _).
    by eapply lookup_lt_Some.
  - destruct (to_long ctx kv) as [key|e']; [|done]. simpl. intros [= Hfind].
    apply find_first_int_Some in Hfind as (r & Hr & _).
    by eapply lookup_lt_Some.
Qed.

(** X1: outside a write transaction [create] throws the transaction
    error before it asks anything of the input, and leaves the realm as
    it was; hence a [create] that returns an object was called in a
    transaction. *)
Theorem create_requires_transaction ctx schema value try_update realm :
  (is_in_transaction realm = false →
     create ctx schema value try_update realm = (Throw TransactionStateError, realm))
  ∧ (∀ object realm',
       create ctx schema value try_update realm = (Done object, realm') →
       is_in_transaction realm = true).
Proof.
  assert (is_in_transaction realm = false →
          create ctx schema value try_update realm
          = (Throw TransactionStateError, realm)) as Hout.
  { intros Htx. apply create_no_row.
    by apply get_or_create_row_no_transaction. }
  split; [done|]. intros object realm' Hrun.
  destruct (is_in_transaction realm); [done|].
  rewrite Hout in Hrun by done. discriminate.
Qed.

(** X2: the first half of [create] writes no cell.  When it returns a
    created row, the realm is the one received with one empty row added
    at the end of the table of the schema, and the index is that of this
    row; when it returns a row that was found, the realm is the one
    received, the row is in the table, upsert was allowed and the schema
    has a primary key property; when it throws, the realm is the one
    received: no row is allocated on a failure. *)
Theorem get_or_create_row_effect ctx schema value try_update realm o realm' :
  get_or_create_row ctx schema value try_update realm = (o, realm') →
  match o with
  | Done (i, true) =>
      i = length (backing_table realm schema)
      ∧ realm' = with_empty_row realm schema
  | Done (i, false) =>
      realm' = realm
      ∧ i < length (backing_table realm schema)
      ∧ try_update = true
      ∧ is_Some (primary_key_property schema)
  | Throw e => realm' = realm
  end.
Proof.
  intros Hrun.
  destruct (is_in_transaction realm) eqn:Htx.
  2:{ rewrite get_or_create_row_no_transaction in Hrun by done.
      by injection Hrun as <- <-. }
  destruct (primary_key_property schema) as [primary_prop|] eqn:Hpk.
  2:{ rewrite get_or_create_row_no_primary_key in Hrun by done.
      by injection Hrun as <- <-. }
  rewrite (get_or_create_row_search _ _ primary_prop) in Hrun by done.
  destruct (find_existing_row ctx schema primary_prop value realm).1
    as [[i|]|e] eqn:Hfind.
  - apply find_existing_row_in_table in Hfind.
    destruct try_update; injection Hrun as <- <-; [|done].
    split_and!; [done..|]. by eexists.
  - by injection Hrun as <- <-.
  - by injection Hrun as <- <-.
Qed.

End Allocation.

Lemma create_requires_transaction_witness :
  create (Accessor := JSAccessor 1) sample_ctx Person
         (JSDict [("id", JSNumber 1)]) false (mkRealm false (read_group sample_realm))
  = (Throw TransactionStateError, mkRealm false (read_group sample_realm)).
Proof.
  exact (proj1 (create_requires_transaction (Accessor := JSAccessor 1) sample_ctx
                  Person (JSDict [("id", JSNumber 1)]) false
                  (mkRealm false (read_group sample_realm))) eq_refl).
Defined.

(** The first account gets row 0 of a table that had none. *)
Lemma get_or_create_row_effect_witness :
  0 = length (backing_table empty_realm Account)
  ∧ mkRealm true (<["Account" := [∅]]> ∅) = with_empty_row empty_realm Account.
Proof.
  apply (get_or_create_row_effect (Accessor := JSAccessor 0) account_ctx Account
           account_value false empty_realm (Done (0, true))
           (mkRealm true (<["Account" := [∅]]> ∅))).
  vm_compute. reflexivity.
Defined.

(** ** Writes of scalars *)

Lemma update_row_same_but_row row f realm :
  same_but_row realm (update_row row f realm).2 row.
Proof.
  split_and!.
  - done.
  - intros object_type. unfold update_row, table_for_object_type. simpl.
    rewrite lookup_alter. destruct (decide _) as [<-|]; [|done].
    destruct (read_group realm !! get_table row); simpl; [|done].
    apply length_alter.
  - intros row' Hne. rewrite row_data_update_row. by rewrite decide_False.
Qed.

Lemma same_but_row_refl realm row : same_but_row realm realm row.
Proof. done. Qed.

Lemma same_but_row_trans realm1 realm2 realm3 row :
  same_but_row realm1 realm2 row → same_but_row realm2 realm3 row →
  same_but_row realm1 realm3 row.
Proof.
  intros (Htx1 & Hlen1 & Hrows1) (Htx2 & Hlen2 & Hrows2). split_and!.
  - congruence.
  - intros object_type. by rewrite Hlen2.
  - intros row' Hne. by rewrite Hrows2, Hrows1.
Qed.

Lemma row_data_is_Some_update_row row f realm row' :
  is_Some (row_data (update_row row f realm).2 row') ↔ is_Some (row_data realm row').
Proof.
  rewrite row_data_update_row. destruct (decide _); [|done].
  by rewrite fmap_is_Some.
Qed.

(** Writing a column twice keeps the second cell. *)
Lemma set_cell_set_cell row column c1 c2 realm :
  (set_cell row column c2 (set_cell row column c1 realm).2).2
  = (set_cell row column c2 realm).2.
Proof.
  unfold set_cell, update_row. simpl. f_equal.
  rewrite alter_alter_eq. apply alter_ext. intros t _. simpl.
  rewrite list_alter_alter_eq. apply list_alter_ext; [|done]. intros r _. simpl.
  apply insert_insert_eq.
Qed.

(** Writes to two columns commute. *)
Lemma set_cell_commute row column1 c1 column2 c2 realm :
  column1 ≠ column2 →
  (set_cell row column2 c2 (set_cell row column1 c1 realm).2).2
  = (set_cell row column1 c1 (set_cell row column2 c2 realm).2).2.
Proof.
  intros Hne. unfold set_cell, update_row. simpl. f_equal.
  rewrite !alter_alter_eq. apply alter_ext. intros t _. simpl.
  rewrite !list_alter_alter_eq. apply list_alter_ext; [|done]. intros r _. simpl.
  by apply insert_insert_ne.
Qed.

Section ScalarWrites.
Context {ValueType ContextType : Type}.
Context {Accessor : NativeAccessor ValueType ContextType}.
Implicit Types (ctx : ContextType) (value : ValueType) (realm : Realm).

Lemma converted_to_unique ctx prop value c c' :
  converted_to ctx prop value c → converted_to ctx prop value c' → c = c'.
Proof.
  unfold converted_to. destruct (Property.type prop); try done;
    intros (v & Hv & ->) (v' & Hv' & ->); congruence.
Qed.

(** The write of a scalar is a conversion followed by one cell, from
    whatever realm. *)
Lemma scalar_write_cases ctx object prop value try_update :
  is_link_type (Property.type prop) = false →
  (∃ c, converted_to ctx prop value c
        ∧ ∀ realm,
            set_property_value_impl ctx object prop value try_update realm
            = set_cell (row object) (Property.table_column prop) c realm)
  ∨ (∃ e, (∀ realm,
             set_property_value_impl ctx object prop value try_update realm
             = (Throw e, realm))
          ∧ ∀ c, ¬ converted_to ctx prop value c).
Proof.
  intros Hscalar. unfold set_property_value_impl, converted_to.
  destruct (Property.type prop); try discriminate Hscalar;
    try (right; exists UnsupportedTypeError; split; [done|tauto]);
    match goal with
    | |- context [lift ?conversion] =>
        destruct conversion as [v|e];
        [ left; eexists; split; [by eexists|done]
        | right; exists e; split; [done|];
          intros c (v & Hv & _); discriminate Hv ]
    end.
Qed.

(** X3: the write of a property that is not a link (bool, int, float,
    double, string, data, date, any) is all or nothing.  When it
    returns, the realm is the one received with exactly one cell
    written, at the column of the property in the row of the object: the
    converted value, as a blob for the type data; an existing row reads
    it back.  When it throws (a conversion failed, or the type is any),
    the realm is the one received.  Either way every other row, the size
    of every table and the transaction flag are as before. *)
Theorem scalar_write_effect ctx object prop value try_update realm o realm' :
  is_link_type (Property.type prop) = false →
  set_property_value_impl ctx object prop value try_update realm = (o, realm') →
  same_but_row realm realm' (row object)
  ∧ match o with
    | Done _ =>
        ∃ c, converted_to ctx prop value c
             ∧ realm' = (set_cell (row object) (Property.table_column prop) c
                                  realm).2
             ∧ (is_Some (row_data realm (row object)) →
                cell_at realm' (row object) (Property.table_column prop) = Some c)
    | Throw e => realm' = realm ∧ ∀ c, ¬ converted_to ctx prop value c
    end.
Proof.
  intros Hscalar Hrun.
  destruct (scalar_write_cases ctx object prop value try_update Hscalar)
    as [(c & Hc & Hwrite)|(e & Hthrow & Hnone)].
  - rewrite Hwrite in Hrun. apply set_cell_run in Hrun as [-> ->]. split.
    + apply update_row_same_but_row.
    + exists c. split_and!; [done..|]. intros Hrow. by apply cell_at_set_cell.
  - rewrite Hthrow in Hrun. injection Hrun as <- <-. done.
Qed.

(** X4: writes of scalars compose as assignments.  After a write that
    returned, a second write to the same column that returns leaves the
    realm that it alone would have left (the last write wins); and two
    writes that return, to different columns of the same object, leave
    the same realm in either order. *)
Theorem scalar_writes_compose ctx object prop1 prop2 value1 value2 try_update
    realm realm1 realm2 :
  is_link_type (Property.type prop1) = false →
  is_link_type (Property.type prop2) = false →
  set_property_value_impl ctx object prop1 value1 try_update realm
  = (Done tt, realm1) →
  set_property_value_impl ctx object prop2 value2 try_update realm1
  = (Done tt, realm2) →
  (Property.table_column prop1 = Property.table_column prop2 →
     set_property_value_impl ctx object prop2 value2 try_update realm
     = (Done tt, realm2))
  ∧ (Property.table_column prop1 ≠ Property.table_column prop2 →
     ∃ realm1',
       set_property_value_impl ctx object prop2 value2 try_update realm
       = (Done tt, realm1')
       ∧ set_property_value_impl ctx object prop1 value1 try_update realm1'
         = (Done tt, realm2)).
Proof.
  intros Hscalar1 Hscalar2 Hrun1 Hrun2.
  destruct (scalar_write_cases ctx object prop1 value1 try_update Hscalar1)
    as [(c1 & _ & Hwrite1)|(e & Hthrow & _)]; [|by rewrite Hthrow in Hrun1].
  destruct (scalar_write_cases ctx object prop2 value2 try_update Hscalar2)
    as [(c2 & _ & Hwrite2)|(e & Hthrow & _)]; [|by rewrite Hthrow in Hrun2].
  rewrite Hwrite1 in Hrun1. apply set_cell_run in Hrun1 as [_ ->].
  rewrite Hwrite2 in Hrun2. apply set_cell_run in Hrun2 as [_ ->].
  split.
  - intros Hsame. rewrite Hwrite2, Hsame. unfold set_cell at 1, update_row at 1.
    f_equal. symmetry. apply set_cell_set_cell.
  - intros Hne. eexists. rewrite Hwrite2. split; [reflexivity|].
    rewrite Hwrite1. unfold set_cell at 1, update_row at 1. f_equal.
    symmetry. by apply set_cell_commute.
Qed.

End ScalarWrites.

Lemma cell_at_stored realm realm' row column :
  stored_at realm' row column = stored_at realm row column →
  cell_at realm' row column = cell_at realm row column.
Proof.
  unfold stored_at, cell_at.
  destruct (row_data realm' row), (row_data realm row); simpl; try done.
  by intros [= ->].
Qed.

Lemma stored_at_same_but_row realm realm' row row' column :
  same_but_row realm realm' row → row' ≠ row →
  stored_at realm' row' column = stored_at realm row' column.
Proof. intros (_ & _ & Hrows) Hne. unfold stored_at. by rewrite Hrows. Qed.

Section PopulateScalars.
Context {ValueType ContextType : Type}.
Context {Accessor : NativeAccessor ValueType ContextType}.
Implicit Types (ctx : ContextType) (value : ValueType) (realm : Realm).

(** One turn of the populate loop: the property is passed over, or the
    supplied value goes to the writer, or nothing is supplied and the
    turn throws. *)
Lemma populate_property_cases ctx object value try_update created prop realm
    o realm' :
  populate_property ctx object value try_update created prop realm = (o, realm') →
  (passed_over ctx value created prop ∧ o = Done tt ∧ realm' = realm)
  ∨ (∃ v, supplied ctx (object_schema object) value created prop v
          ∧ set_property_value_impl ctx object prop v try_update realm
            = (o, realm'))
  ∨ (realm' = realm ∧ ∃ e, o = Throw e).
Proof.
  unfold populate_property, passed_over, supplied. intros Hrun.
  destruct (created || negb (Property.is_primary prop)) eqn:Hturn.
  2:{ apply orb_false_iff in Hturn as [-> Hprimary].
      apply negb_false_iff in Hprimary. injection Hrun as <- <-. left. eauto. }
  assert (created = true ∨ Property.is_primary prop = false) as Hturn'.
  { apply orb_true_iff in Hturn as [?|Hprimary]; [by left|right].
    by apply negb_true_iff in Hprimary. }
  destruct (dict_has_value_for_key ctx value (Property.name prop)) eqn:Hhas.
  - rewrite bind_lift in Hrun.
    destruct (dict_value_for_key ctx value (Property.name prop)) as [v|e] eqn:Hv.
    + right. left. exists v. eauto.
    + injection Hrun as <- <-. right. right. eauto.
  - destruct created.
    + destruct (has_default_value_for_property _ _ _) eqn:Hdef.
      * rewrite bind_lift in Hrun.
        destruct (default_value_for_property _ _ _) as [v|e] eqn:Hv.
        -- right. left. exists v. split; [|done]. split; [done|]. right. eauto.
        -- injection Hrun as <- <-. right. right. eauto.
      * injection Hrun as <- <-. right. right. eauto.
    + injection Hrun as <- <-. left. eauto.
Qed.

(** One turn for a scalar property: what it leaves, whatever its
    outcome. *)
Lemma populate_property_scalar ctx object value try_update created prop realm
    o realm' :
  is_link_type (Property.type prop) = false →
  populate_property ctx object value try_update created prop realm = (o, realm') →
  same_but_row realm realm' (row object)
  ∧ (is_Some (row_data realm (row object)) → is_Some (row_data realm' (row object)))
  ∧ (∀ column, column ≠ Property.table_column prop →
       stored_at realm' (row object) column = stored_at realm (row object) column)
  ∧ (o = Done tt →
     (passed_over ctx value created prop ∧ realm' = realm)
     ∨ ∃ v c, supplied ctx (object_schema object) value created prop v
              ∧ converted_to ctx prop v c
              ∧ realm' = (set_cell (row object) (Property.table_column prop) c
                                   realm).2).
Proof.
  intros Hscalar Hrun.
  apply populate_property_cases in Hrun
    as [(Hpass & -> & ->)|[(v & Hv & Hrun)|(-> & e & ->)]].
  - split_and!; [done..|]. intros _. by left.
  - destruct (scalar_write_cases ctx object prop v try_update Hscalar)
      as [(c & Hc & Hwrite)|(e & Hthrow & _)].
    + rewrite Hwrite in Hrun. apply set_cell_run in Hrun as [-> ->]. split_and!.
      * apply update_row_same_but_row.
      * intros Hrow. by apply row_data_is_Some_update_row.
      * intros column Hne. apply stored_at_set_cell_ne. by right.
      * intros _. right. eauto.
    + rewrite Hthrow in Hrun. injection Hrun as <- <-. done.
  - done.
Qed.

(** The loop over scalar properties changes the row of the object only. *)
Lemma populate_scalar_frame ctx object value try_update created props :
  Forall (λ p, is_link_type (Property.type p) = false) props →
  ∀ realm o realm',
    populate ctx object value try_update created props realm = (o, realm') →
    same_but_row realm realm' (row object)
    ∧ (is_Some (row_data realm (row object)) →
       is_Some (row_data realm' (row object)))
    ∧ ∀ column, column ∉ Property.table_column <$> props →
        stored_at realm' (row object) column = stored_at realm (row object) column.
Proof.
  induction props as [|prop props IH]; intros Hscalar realm o realm' Hrun.
  - by injection Hrun as _ <-.
  - apply Forall_cons in Hscalar as [Hprop Hprops]. simpl in Hrun.
    apply bind_inv in Hrun as [([] & realm1 & Hturn & Hrun)|(e & Hturn & _)].
    + apply populate_property_scalar in Hturn as (Hsame1 & Hrow1 & Hcols1 & _);
        [|done].
      apply (IH Hprops) in Hrun as (Hsame & Hrow & Hcols). split_and!.
      * by eapply same_but_row_trans.
      * auto.
      * intros column Hcolumn. rewrite fmap_cons, not_elem_of_cons in Hcolumn.
        destruct Hcolumn as [Hne Hnotin]. by rewrite Hcols, Hcols1.
    + apply populate_property_scalar in Hturn as (Hsame1 & Hrow1 & Hcols1 & _);
        [|done].
      split_and!; [done..|].
      intros column Hcolumn. rewrite fmap_cons, not_elem_of_cons in Hcolumn.
      destruct Hcolumn as [Hne Hnotin]. by apply Hcols1.
Qed.

(** After the loop has returned, each property holds the supplied value,
    converted, or was passed over and holds what it held. *)
Lemma populate_scalar_cells ctx object value try_update created props :
  Forall (λ p, is_link_type (Property.type p) = false) props →
  NoDup (Property.table_column <$> props) →
  ∀ realm realm',
    is_Some (row_data realm (row object)) →
    populate ctx object value try_update created props realm = (Done tt, realm') →
    ∀ prop, prop ∈ props →
      (∃ v c, supplied ctx (object_schema object) value created prop v
              ∧ converted_to ctx prop v c
              ∧ cell_at realm' (row object) (Property.table_column prop) = Some c)
      ∨ (passed_over ctx value created prop
         ∧ stored_at realm' (row object) (Property.table_column prop)
           = stored_at realm (row object) (Property.table_column prop)).
Proof.
  induction props as [|p props IH];
    intros Hscalar Hnodup realm realm' Hrow Hrun prop Hin.
  - by apply elem_of_nil in Hin.
  - apply Forall_cons in Hscalar as [Hp Hprops].
    rewrite fmap_cons in Hnodup. apply NoDup_cons in Hnodup as [Hfresh Hnodup].
    simpl in Hrun.
    apply bind_inv in Hrun as [([] & realm1 & Hturn & Hrun)|(e & _ & ?)]; [|done].
    apply populate_property_scalar in Hturn as (_ & Hrow1 & Hcols1 & Hdone);
      [|done].
    specialize (Hrow1 Hrow).
    apply elem_of_cons in Hin as [->|Hin].
    + destruct (populate_scalar_frame ctx object value try_update created props
                  Hprops realm1 (Done tt) realm' Hrun) as (_ & _ & Hrest).
      specialize (Hrest _ Hfresh).
      destruct (Hdone eq_refl) as [[Hpass ->]|(v & c & Hv & Hc & ->)].
      * right. done.
      * left. exists v, c. split_and!; [done..|].
        rewrite (cell_at_stored _ _ _ _ Hrest). by apply cell_at_set_cell.
    + assert (Property.table_column prop ≠ Property.table_column p) as Hne.
      { intros Heq. apply Hfresh. rewrite <- Heq. by apply list_elem_of_fmap_2. }
      destruct (IH Hprops Hnodup realm1 realm' Hrow1 Hrun prop Hin)
        as [Hcell|[Hpass Hstored]]; [by left|].
      right. split; [done|]. rewrite Hstored. by apply Hcols1.
Qed.

(** The loop for a created row returns only when every property has an
    entry in the input or a default. *)
Lemma populate_created_complete ctx object value try_update props :
  ∀ realm realm',
    populate ctx object value try_update true props realm = (Done tt, realm') →
    ∀ prop, prop ∈ props →
      dict_has_value_for_key ctx value (Property.name prop) = true
      ∨ has_default_value_for_property ctx (object_schema object)
          (Property.name prop) = true.
Proof.
  induction props as [|p props IH]; intros realm realm' Hrun prop Hin.
  - by apply elem_of_nil in Hin.
  - simpl in Hrun.
    apply bind_inv in Hrun as [([] & realm1 & Hturn & Hrun)|(e & _ & ?)]; [|done].
    apply elem_of_cons in Hin as [->|Hin]; [|by eapply IH].
    apply populate_property_cases in Hturn
      as [([? _] & _)|[(v & [_ Hv] & _)|(_ & e & ?)]]; [done| |done].
    destruct Hv as [[? _]|(_ & _ & ? & _)]; auto.
Qed.

End PopulateScalars.

Section CreateScalars.
Context {ValueType ContextType : Type}.
Context {Accessor : NativeAccessor ValueType ContextType}.
Implicit Types (ctx : ContextType) (value : ValueType) (realm : Realm).

Lemma create_run_inv ctx schema value try_update realm i created realm1 o realm' :
  get_or_create_row ctx schema value try_update realm
  = (Done (i, created), realm1) →
  create ctx schema value try_update realm = (o, realm') →
  ∃ o1,
    populate ctx (mkObject schema (mkRow (ObjectSchema.name schema) i)) value
             try_update created (ObjectSchema.properties schema) realm1
    = (o1, realm')
    ∧ o = match o1 with
          | Done _ => Done (mkObject schema (mkRow (ObjectSchema.name schema) i))
          | Throw e => Throw e
          end.
Proof.
  intros Hrow Hrun. rewrite (create_on_row _ _ _ _ _ _ _ _ Hrow) in Hrun.
  unfold populate_row in Hrun.
  apply bind_inv in Hrun as [([] & realm2 & Hpop & Hret)|(e & Hpop & ->)].
  - injection Hret as <- <-. by exists (Done tt).
  - by exists (Throw e).
Qed.

(** The row that the first half of [create] returns is in the table. *)
Lemma get_or_create_row_exists ctx schema value try_update realm i created realm1 :
  get_or_create_row ctx schema value try_update realm
  = (Done (i, created), realm1) →
  is_Some (row_data realm1 (mkRow (ObjectSchema.name schema) i))
  ∧ is_in_transaction realm1 = is_in_transaction realm
  ∧ (∀ row', row' ≠ mkRow (ObjectSchema.name schema) i →
       row_data realm1 row' = row_data realm row')
  ∧ ∀ object_type,
      length (table_for_object_type (read_group realm1) object_type)
      = length (table_for_object_type (read_group realm) object_type)
        + (if created && bool_decide (object_type = ObjectSchema.name schema)
           then 1 else 0).
Proof.
  intros Hrow.
  assert (match created with
          | true => i = length (backing_table realm schema)
                    ∧ realm1 = with_empty_row realm schema
          | false => realm1 = realm ∧ i < length (backing_table realm schema)
          end) as Heffect.
  { destruct (is_in_transaction realm) eqn:Htx.
    2:{ by rewrite get_or_create_row_no_transaction in Hrow. }
    destruct (primary_key_property schema) as [primary_prop|] eqn:Hpk.
    2:{ rewrite get_or_create_row_no_primary_key in Hrow by done.
        by injection Hrow as <- <- <-. }
    rewrite (get_or_create_row_search _ _ primary_prop) in Hrow by done.
    destruct (find_existing_row ctx schema primary_prop value realm).1
      as [[j|]|e] eqn:Hfind; [| |done].
    - apply find_existing_row_in_table in Hfind.
      destruct try_update; [|done]. by injection Hrow as <- <- <-.
    - by injection Hrow as <- <- <-. }
  destruct created.
  - destruct Heffect as [-> ->]. split_and!.
    + rewrite row_data_with_empty_row, decide_True by done. by eexists.
    + done.
    + intros row' Hne. by rewrite row_data_with_empty_row, decide_False.
    + intros object_type. rewrite table_with_empty_row. simpl.
      destruct (decide (ObjectSchema.name schema = object_type)) as [<-|Hne].
      * rewrite bool_decide_eq_true_2 by done. rewrite length_app. simpl.
        unfold backing_table. lia.
      * rewrite bool_decide_eq_false_2 by congruence. lia.
  - destruct Heffect as [-> Hlt]. split_and!; [|done|done|].
    + unfold row_data. simpl. by apply lookup_lt_is_Some_2.
    + intros object_type. simpl. lia.
Qed.

Lemma found_row_keeps_realm ctx schema value try_update realm i realm1 :
  get_or_create_row ctx schema value try_update realm = (Done (i, false), realm1) →
  realm1 = realm.
Proof.
  intros Hrow.
  destruct (is_in_transaction realm) eqn:Htx.
  2:{ by rewrite get_or_create_row_no_transaction in Hrow. }
  destruct (primary_key_property schema) as [primary_prop|] eqn:Hpk.
  2:{ by rewrite get_or_create_row_no_primary_key in Hrow. }
  rewrite (get_or_create_row_search _ _ primary_prop) in Hrow by done.
  destruct (find_existing_row ctx schema primary_prop value realm).1
    as [[j|]|e]; [|done..].
  destruct try_update; [|done]. by injection Hrow as _ <-.
Qed.

(** X5: for a schema without link properties, [create] changes one row
    and no other: the row it found or allocated.  Whatever the outcome,
    every other row of every table holds what it held, no table changes
    its size but the one of the schema, by the one row allocated, and the
    transaction stays open.  In particular a creation that throws while
    it populates leaves the row it had allocated in the table: nothing is
    rolled back. *)
Theorem create_touches_one_row ctx schema value try_update realm i created realm1
    o realm' :
  Forall (λ p, is_link_type (Property.type p) = false)
         (ObjectSchema.properties schema) →
  get_or_create_row ctx schema value try_update realm
  = (Done (i, created), realm1) →
  create ctx schema value try_update realm = (o, realm') →
  let row := mkRow (ObjectSchema.name schema) i in
  is_in_transaction realm' = is_in_transaction realm
  ∧ is_Some (row_data realm' row)
  ∧ (∀ row', row' ≠ row → row_data realm' row' = row_data realm row')
  ∧ (∀ object_type,
       length (table_for_object_type (read_group realm') object_type)
       = length (table_for_object_type (read_group realm) object_type)
         + (if created && bool_decide (object_type = ObjectSchema.name schema)
            then 1 else 0))
  ∧ ∀ object, o = Done object → object = mkObject schema row.
Proof.
  intros Hscalar Hrow Hrun row.
  destruct (create_run_inv _ _ _ _ _ _ _ _ _ _ Hrow Hrun) as (o1 & Hpop & ->).
  apply get_or_create_row_exists in Hrow as (Hexists & Htx & Hrows & Hlen).
  apply (populate_scalar_frame _ _ _ _ _ _ Hscalar) in Hpop
    as ((Htx' & Hlen' & Hrows') & Hexists' & _).
  split_and!.
  - congruence.
  - by apply Hexists'.
  - intros row' Hne. by rewrite Hrows', Hrows.
  - intros object_type. by rewrite Hlen', Hlen.
  - intros object Ho. destruct o1 as [[]|e]; [|discriminate Ho].
    by injection Ho as <-.
Qed.

(** X6: a creation that returns has found, for every property of the
    schema, an entry in the input or a registered default. *)
Theorem created_object_is_complete ctx schema value try_update realm i realm1
    object realm' :
  get_or_create_row ctx schema value try_update realm = (Done (i, true), realm1) →
  create ctx schema value try_update realm = (Done object, realm') →
  ∀ prop, prop ∈ ObjectSchema.properties schema →
    dict_has_value_for_key ctx value (Property.name prop) = true
    ∨ has_default_value_for_property ctx schema (Property.name prop) = true.
Proof.
  intros Hrow Hrun prop Hin.
  destruct (create_run_inv _ _ _ _ _ _ _ _ _ _ Hrow Hrun) as (o1 & Hpop & Ho).
  destruct o1 as [[]|e]; [|done].
  by apply (populate_created_complete _ _ _ _ _ _ _ Hpop prop Hin).
Qed.

(** X7: for a schema without link properties whose properties have
    distinct columns, a [create] that returns leaves in the row of the
    object, for every property of the schema, the conversion of the value
    supplied for it: the entry of the input or, on creation, the default.
    A property passed over by an update (the primary key, a property
    without entry) holds what it held before. *)
Theorem create_stores_supplied_values ctx schema value try_update realm i created
    realm1 object realm' :
  Forall (λ p, is_link_type (Property.type p) = false)
         (ObjectSchema.properties schema) →
  NoDup (Property.table_column <$> ObjectSchema.properties schema) →
  get_or_create_row ctx schema value try_update realm
  = (Done (i, created), realm1) →
  create ctx schema value try_update realm = (Done object, realm') →
  ∀ prop, prop ∈ ObjectSchema.properties schema →
    (∃ v c, supplied ctx schema value created prop v
            ∧ converted_to ctx prop v c
            ∧ cell_at realm' (row object) (Property.table_column prop) = Some c)
    ∨ (passed_over ctx value created prop
       ∧ stored_at realm' (row object) (Property.table_column prop)
         = stored_at realm (row object) (Property.table_column prop)).
Proof.
  intros Hscalar Hnodup Hrow Hrun prop Hin.
  destruct (create_run_inv _ _ _ _ _ _ _ _ _ _ Hrow Hrun) as (o1 & Hpop & Ho).
  destruct o1 as [[]|e]; [|done]. injection Ho as ->.
  pose proof (get_or_create_row_exists _ _ _ _ _ _ _ _ Hrow)
    as (Hexists & _ & _ & _).
  destruct (populate_scalar_cells ctx
              (mkObject schema (mkRow (ObjectSchema.name schema) i))
              value try_update created _ Hscalar Hnodup
              realm1 realm' Hexists Hpop prop Hin)
    as [Hcell|[Hpass Hstored]]; [by left|].
  right. split; [done|]. rewrite Hstored. simpl.
  destruct Hpass as [-> _].
  pose proof (found_row_keeps_realm ctx schema value try_update realm i
                realm1 Hrow) as ->.
  done.
Qed.

End CreateScalars.

Section RoundTrip.
Context {ValueType ContextType : Type}.
Context {Accessor : NativeAccessor ValueType ContextType}.
Implicit Types (ctx : ContextType) (value : ValueType) (realm : Realm).

Lemma key_matches_column ctx primary_prop kv (r r' : RowData) :
  r' !! Property.table_column primary_prop = r !! Property.table_column primary_prop →
  key_matches ctx primary_prop kv r → key_matches ctx primary_prop kv r'.
Proof.
  intros Hcell. unfold key_matches, get_string, get_int. by rewrite Hcell.
Qed.

(** What the search has established when it returns. *)
Lemma find_existing_row_result ctx schema primary_prop value realm found :
  (find_existing_row ctx schema primary_prop value realm).1 = Done found →
  ∃ kv,
    dict_value_for_key ctx value (ObjectSchema.primary_key schema) = Done kv
    ∧ match found with
      | Some i => first_key_match ctx primary_prop kv (backing_table realm schema) i
      | None =>
          ∀ j r, backing_table realm schema !! j = Some r →
                 ¬ key_matches ctx primary_prop kv r
      end.
Proof.
  unfold find_existing_row. rewrite bind_lift.
  destruct (dict_value_for_key _ _ _) as [kv|e]; [|done].
  intros Hfind. exists kv. split; [done|].
  unfold first_key_match, key_matches.
  destruct (decide _); rewrite bind_lift in Hfind.
  - destruct (to_string ctx kv) as [key|e']; [|done]. simpl in Hfind.
    injection Hfind as Hfind. destruct found as [i|].
    + apply find_first_string_Some in Hfind as (r & Hr & Hkey & Hmin).
      exists r. split_and!; [done|by rewrite Hkey|].
      intros j r' Hr' Hlt [= Heq]. by eapply Hmin.
    + intros j r Hr [= Heq]. by eapply find_first_string_None.
  - destruct (to_long ctx kv) as [key|e']; [|done]. simpl in Hfind.
    injection Hfind as Hfind. destruct found as [i|].
    + apply find_first_int_Some in Hfind as (r & Hr & Hkey & Hmin).
      exists r. split_and!; [done|by rewrite Hkey|].
      intros j r' Hr' Hlt [= Heq]. by eapply Hmin.
    + intros j r Hr [= Heq]. by eapply find_first_int_None.
Qed.

(** A cell written for an int or string key matches that key. *)
Lemma converted_key_matches ctx primary_prop kv c (r : RowData) :
  Property.type primary_prop = PropertyTypeInt
  ∨ Property.type primary_prop = PropertyTypeString →
  converted_to ctx primary_prop kv c →
  r !! Property.table_column primary_prop = Some c →
  key_matches ctx primary_prop kv r.
Proof.
  unfold converted_to, key_matches, get_int, get_string.
  intros [Hty|Hty]; rewrite Hty; simpl; intros (v & Hv & ->) ->; done.
Qed.

(** After a creation that returned, the row of the object is the first
    that matches the key, and the transaction is open. *)
Lemma create_lookup_agree ctx schema primary_prop value try_update realm
    object realm' :
  Forall (λ p, is_link_type (Property.type p) = false)
         (ObjectSchema.properties schema) →
  NoDup (Property.table_column <$> ObjectSchema.properties schema) →
  primary_key_property schema = Some primary_prop →
  Property.type primary_prop = PropertyTypeInt
  ∨ Property.type primary_prop = PropertyTypeString →
  dict_has_value_for_key ctx value (ObjectSchema.primary_key schema) = true →
  create ctx schema value try_update realm = (Done object, realm') →
  ∃ kv,
    dict_value_for_key ctx value (ObjectSchema.primary_key schema) = Done kv
    ∧ first_key_match ctx primary_prop kv (backing_table realm' schema)
                      (get_index (row object))
    ∧ is_in_transaction realm' = true.
Proof.
  intros Hscalar Hnodup Hpk Hty Hhas Hrun.
  assert (is_in_transaction realm = true) as Htx.
  { destruct (is_in_transaction realm) eqn:Htx; [done|].
    erewrite create_no_row in Hrun; [done|].
    by apply get_or_create_row_no_transaction. }
  destruct (get_or_create_row ctx schema value try_update realm)
    as [[[i created]|e] realm1] eqn:Hrow.
  2:{ by rewrite (create_no_row _ _ _ _ _ _ _ Hrow) in Hrun. }
  destruct (create_run_inv _ _ _ _ _ _ _ _ _ _ Hrow Hrun) as (o1 & Hpop & Ho).
  destruct o1 as [[]|e]; [|done]. injection Ho as ->. simpl.
  pose proof (get_or_create_row_exists _ _ _ _ _ _ _ _ Hrow)
    as (Hexists1 & Htx1 & Hrows1 & _).
  remember (mkRow (ObjectSchema.name schema) i) as row_i eqn:Hrow_i.
  destruct (populate_scalar_frame ctx (mkObject schema row_i) value try_update
              created _ Hscalar realm1 (Done tt) realm' Hpop)
    as ((Htx' & _ & Hrows') & Hexists' & _).
  cbn [row] in *.
  destruct (Hexists' Hexists1) as [r' Hr'].
  destruct (primary_key_property_Some _ _ Hpk) as [Hin Hname].
  (* what the search had found *)
  rewrite (get_or_create_row_search _ _ primary_prop) in Hrow by done.
  destruct (find_existing_row ctx schema primary_prop value realm).1
    as [found|e] eqn:Hfind; [|done].
  apply find_existing_row_result in Hfind as (kv & Hkv & Hfound).
  assert (key_matches ctx primary_prop kv r'
          ∧ ∀ j r, j < i → backing_table realm schema !! j = Some r →
                   ¬ key_matches ctx primary_prop kv r) as [Hmatch Hmin].
  { destruct (populate_scalar_cells ctx (mkObject schema row_i) value try_update
                created _ Hscalar Hnodup realm1 realm' Hexists1 Hpop
                primary_prop Hin) as [(v & c & Hv & Hc & Hcell)|[Hpass Hstored]].
    - assert (v = kv) as ->.
      { destruct Hv as [_ [[_ Hv]|(_ & Hno & _)]].
        - rewrite Hname, Hkv in Hv. by injection Hv.
        - rewrite Hname, Hhas in Hno. done. }
      split.
      + apply (converted_key_matches _ _ _ c); [done..|].
        unfold cell_at in Hcell. cbn [row] in Hcell. by rewrite Hr' in Hcell.
      + destruct found as [i'|].
        * destruct try_update; [|done]. injection Hrow as <- <- <-.
          destruct Hfound as (r & _ & _ & Hmin). intros j r0 Hlt Hr0.
          by eapply Hmin.
        * intros j r0 _ Hr0. by eapply Hfound.
    - destruct Hpass as [-> _]. destruct found as [i'|]; [|done].
      destruct try_update; [|done]. injection Hrow as <- <-.
      destruct Hfound as (r & Hr & Hmatch & Hmin). split.
      + apply (key_matches_column _ _ _ r); [|done].
        unfold stored_at in Hstored. cbn [row] in Hstored.
        rewrite Hr' in Hstored. subst row_i. unfold row_data in Hstored.
        simpl in Hstored.
        fold (backing_table realm schema) in Hstored. rewrite Hr in Hstored.
        by injection Hstored.
      + intros j r0 Hlt Hr0. by eapply Hmin. }
  assert (first_key_match ctx primary_prop kv (backing_table realm' schema) i)
    as Hfirst.
  { exists r'. split_and!; [by subst row_i|done|]. intros j r0 Hr0 Hlt.
    apply (Hmin j r0 Hlt).
    assert (mkRow (ObjectSchema.name schema) j ≠ row_i) as Hne
      by (subst row_i; intros [= ->]; lia).
    pose proof (Hrows' _ Hne) as Hsame'. pose proof (Hrows1 _ Hne) as Hsame1.
    unfold row_data in Hsame', Hsame1. simpl in Hsame', Hsame1.
    unfold backing_table in *. by rewrite <- Hsame1, <- Hsame'. }
  assert (is_in_transaction realm' = true) as Htx'' by congruence.
  eauto.
Qed.

(** X8: creating and looking up agree.  For a schema without link
    properties and with distinct columns whose primary key property has
    type int or string, after a [create] that returned for an input that
    carries the key, the row of the object is the first row of the table
    that matches the key of that input.  So the same input is refused as
    a duplicate by a second [create] without upsert, which changes
    nothing, and is directed to that same row by a second [create] with
    upsert. *)
Theorem create_then_lookup ctx schema primary_prop value try_update realm
    object realm' :
  Forall (λ p, is_link_type (Property.type p) = false)
         (ObjectSchema.properties schema) →
  NoDup (Property.table_column <$> ObjectSchema.properties schema) →
  primary_key_property schema = Some primary_prop →
  Property.type primary_prop = PropertyTypeInt
  ∨ Property.type primary_prop = PropertyTypeString →
  dict_has_value_for_key ctx value (ObjectSchema.primary_key schema) = true →
  create ctx schema value try_update realm = (Done object, realm') →
  (∃ kv,
     dict_value_for_key ctx value (ObjectSchema.primary_key schema) = Done kv
     ∧ first_key_match ctx primary_prop kv (backing_table realm' schema)
                       (get_index (row object)))
  ∧ create ctx schema value false realm'
    = (Throw (DuplicateKeyError (ObjectSchema.name schema)), realm')
  ∧ create ctx schema value true realm'
    = populate_row ctx schema value true (get_index (row object)) false realm'.
Proof.
  intros Hscalar Hnodup Hpk Hty Hhas Hrun.
  destruct (create_lookup_agree ctx schema primary_prop value try_update realm
              object realm' Hscalar Hnodup Hpk Hty Hhas Hrun)
    as (kv & Hkv & Hfirst & Htx').
  split_and!.
  - eauto.
  - by eapply create_refuses_duplicate.
  - by eapply create_updates_match.
Qed.

End RoundTrip.

Section Defaults.
Context {ValueType ContextType : Type}.
Context {Accessor : NativeAccessor ValueType ContextType}.
Implicit Types (ctx : ContextType) (value : ValueType) (realm : Realm).



(** X10: [create] stops at the first property whose turn throws: a
    missing value, or a failure to read or to convert the entry or to
    resolve a link.  It throws that error and leaves the realm that this
    turn left, with the writes of the earlier properties in place and
    whatever properties are declared after it unread. *)
Theorem create_stops_at_first_failure ctx schema value try_update realm
    before prop after i created realm1 realm2 e realm3 :
  ObjectSchema.properties schema = before ++ prop :: after →
  get_or_create_row ctx schema value try_update realm
  = (Done (i, created), realm1) →
  let object := mkObject schema (mkRow (ObjectSchema.name schema) i) in
  populate ctx object value try_update created before realm1 = (Done tt, realm2) →
  populate_property ctx object value try_update created prop realm2
  = (Throw e, realm3) →
  create ctx schema value try_update realm = (Throw e, realm3).
Proof.
  intros Hprops Hrow object Hbefore Hturn.
  rewrite (create_on_row _ _ _ _ _ _ _ _ Hrow).
  unfold populate_row. rewrite Hprops.
  apply bind_throw. rewrite populate_app.
  rewrite (bind_done _ _ _ _ _ Hbefore). simpl.
  by apply bind_throw.
Qed.

End Defaults.

Section Order.
Context {ValueType ContextType : Type}.
Context {Accessor : NativeAccessor ValueType ContextType}.
Implicit Types (ctx : ContextType) (value : ValueType) (realm : Realm).

(** The write of a scalar acts alike on every object and every realm. *)
Lemma scalar_write_uniform ctx prop value try_update :
  is_link_type (Property.type prop) = false →
  (∃ c, converted_to ctx prop value c
        ∧ ∀ object realm,
            set_property_value_impl ctx object prop value try_update realm
            = set_cell (row object) (Property.table_column prop) c realm)
  ∨ (∃ e, (∀ object realm,
             set_property_value_impl ctx object prop value try_update realm
             = (Throw e, realm))
          ∧ ∀ c, ¬ converted_to ctx prop value c).
Proof.
  intros Hscalar. unfold set_property_value_impl, converted_to.
  destruct (Property.type prop); try discriminate Hscalar;
    try (right; exists UnsupportedTypeError; split; [done|tauto]);
    match goal with
    | |- context [lift ?conversion] =>
        destruct conversion as [v|e];
        [ left; eexists; split; [by eexists|done]
        | right; exists e; split; [done|];
          intros c (v & Hv & _); discriminate Hv ]
    end.
Qed.

(** A turn of the loop for a scalar property acts alike on every row
    and every realm: it passes, writes one cell, or throws. *)
Lemma populate_property_uniform ctx schema value try_update created prop :
  is_link_type (Property.type prop) = false →
  (∀ row realm,
     populate_property ctx (mkObject schema row) value try_update created prop
                       realm
     = (Done tt, realm))
  ∨ (∃ c, ∀ row realm,
       populate_property ctx (mkObject schema row) value try_update created prop
                         realm
       = set_cell row (Property.table_column prop) c realm)
  ∨ (∃ e, ∀ row realm,
       populate_property ctx (mkObject schema row) value try_update created prop
                         realm
       = (Throw e, realm)).
Proof.
  intros Hscalar.
  assert (∀ v,
            (∃ c, ∀ row realm,
               set_property_value_impl ctx (mkObject schema row) prop v
                                       try_update realm
               = set_cell row (Property.table_column prop) c realm)
            ∨ (∃ e, ∀ row realm,
                 set_property_value_impl ctx (mkObject schema row) prop v
                                         try_update realm
                 = (Throw e, realm))) as Hwrite.
  { intros v.
    destruct (scalar_write_uniform ctx prop v try_update Hscalar)
      as [(c & _ & Hc)|(e & He & _)]; [left|right]; eauto. }
  unfold populate_property. simpl.
  destruct (created || negb (Property.is_primary prop)); [|by left].
  destruct (dict_has_value_for_key ctx value (Property.name prop)).
  - destruct (dict_value_for_key ctx value (Property.name prop)) as [v|e].
    + destruct (Hwrite v) as [[c Hc]|[e He]]; right; [left|right]; eauto.
    + right. right. by exists e.
  - destruct created; [|by left].
    destruct (has_default_value_for_property _ _ _).
    + destruct (default_value_for_property _ _ _) as [v|e].
      * destruct (Hwrite v) as [[c Hc]|[e He]]; right; [left|right]; eauto.
      * right. right. by exists e.
    + right. right. by eexists.
Qed.

(** Two turns on different columns that return can be exchanged. *)
Lemma populate_property_swap ctx object value try_update created prop1 prop2
    realm realm1 realm2 :
  is_link_type (Property.type prop1) = false →
  is_link_type (Property.type prop2) = false →
  Property.table_column prop1 ≠ Property.table_column prop2 →
  populate_property ctx object value try_update created prop1 realm
  = (Done tt, realm1) →
  populate_property ctx object value try_update created prop2 realm1
  = (Done tt, realm2) →
  ∃ realm1',
    populate_property ctx object value try_update created prop2 realm
    = (Done tt, realm1')
    ∧ populate_property ctx object value try_update created prop1 realm1'
      = (Done tt, realm2).
Proof.
  intros Hscalar1 Hscalar2 Hne Hrun1 Hrun2. destruct object as [schema row].
  destruct (populate_property_uniform ctx schema value try_update created prop1
              Hscalar1) as [H1|[[c1 H1]|[e H1]]];
    destruct (populate_property_uniform ctx schema value try_update created prop2
                Hscalar2) as [H2|[[c2 H2]|[e' H2]]];
    rewrite H1 in Hrun1; rewrite H2 in Hrun2; try discriminate;
    try (apply set_cell_run in Hrun1 as [_ ->]);
    try (apply set_cell_run in Hrun2 as [_ ->]);
    try (injection Hrun1 as <-); try (injection Hrun2 as <-);
    eexists; rewrite H2, H1; (split; [reflexivity|]); try reflexivity.
  unfold set_cell at 1, update_row at 1. f_equal. symmetry.
  by apply set_cell_commute.
Qed.

(** X11: the order in which the properties are declared does not matter
    to what a population that returns leaves.  For scalar properties with
    distinct columns, the loop over any rearrangement of the properties
    returns as well, and leaves the same realm. *)
Theorem populate_order_irrelevant ctx object value try_update created
    props props' realm realm' :
  props ≡ₚ props' →
  Forall (λ p, is_link_type (Property.type p) = false) props →
  NoDup (Property.table_column <$> props) →
  populate ctx object value try_update created props realm = (Done tt, realm') →
  populate ctx object value try_update created props' realm = (Done tt, realm').
Proof.
  intros Hperm. revert realm realm'.
  induction Hperm as [|p l l' Hperm IH|p q l|l l'' l' Hperm1 IH1 Hperm2 IH2];
    intros realm realm' Hscalar Hnodup Hrun.
  - done.
  - apply Forall_cons in Hscalar as [Hp Hl].
    rewrite fmap_cons in Hnodup. apply NoDup_cons in Hnodup as [_ Hnodup].
    simpl in *.
    apply bind_inv in Hrun as [([] & realm1 & Hturn & Hrun)|(e & _ & ?)]; [|done].
    rewrite (bind_done _ _ _ _ _ Hturn). by apply IH.
  - apply Forall_cons in Hscalar as [Hq Hscalar].
    apply Forall_cons in Hscalar as [Hp Hl].
    rewrite !fmap_cons in Hnodup. apply NoDup_cons in Hnodup as [Hfresh _].
    apply not_elem_of_cons in Hfresh as [Hne _].
    simpl in *.
    apply bind_inv in Hrun as [([] & realm1 & Hturn1 & Hrun)|(e & _ & ?)]; [|done].
    apply bind_inv in Hrun as [([] & realm2 & Hturn2 & Hrun)|(e & _ & ?)]; [|done].
    destruct (populate_property_swap _ _ _ _ _ _ _ _ _ _ Hq Hp Hne Hturn1 Hturn2)
      as (realm1' & Hturn2' & Hturn1').
    rewrite (bind_done _ _ _ _ _ Hturn2'). by rewrite (bind_done _ _ _ _ _ Hturn1').
  - apply IH2.
    + by rewrite <- Hperm1.
    + by rewrite <- Hperm1.
    + by apply IH1.
Qed.

End Order.

(** Writing to a column the cell it holds changes nothing. *)
Lemma set_cell_id row column c realm :
  cell_at realm row column = Some c →
  set_cell row column c realm = (Done tt, realm).
Proof.
  intros Hcell. destruct realm as [tx group]. unfold set_cell, update_row.
  simpl. do 2 f_equal.
  unfold cell_at, row_data, table_for_object_type in Hcell. simpl in Hcell.
  apply alter_id. intros t Ht. rewrite Ht in Hcell. simpl in Hcell.
  apply list_eq. intros j. rewrite list_lookup_alter.
  destruct (decide (get_index row = j)) as [<-|]; [|done].
  destruct (t !! get_index row) as [r|]; simpl in *; [|done].
  f_equal. by apply insert_id.
Qed.

Section Repeat.
Context {ValueType ContextType : Type}.
Context {Accessor : NativeAccessor ValueType ContextType}.
Implicit Types (ctx : ContextType) (value : ValueType) (realm : Realm).

(** A population of scalars that returns for one row from one realm
    returns for every row from every realm. *)
Lemma populate_scalar_returns ctx schema value try_update created props :
  Forall (λ p, is_link_type (Property.type p) = false) props →
  ∀ row realm realm',
    populate ctx (mkObject schema row) value try_update created props realm
    = (Done tt, realm') →
    ∀ row2 realm2, ∃ realm2',
      populate ctx (mkObject schema row2) value try_update created props realm2
      = (Done tt, realm2').
Proof.
  induction props as [|prop props IH];
    intros Hscalar row realm realm' Hrun row2 realm2.
  - by eexists.
  - apply Forall_cons in Hscalar as [Hprop Hprops]. simpl in *.
    apply bind_inv in Hrun as [([] & realm1 & Hturn & Hrun)|(e & _ & ?)]; [|done].
    destruct (populate_property_uniform ctx schema value try_update created prop
                Hprop) as [Hpass|[[c Hwrite]|[e Hthrow]]].
    + unfold bind. rewrite Hpass. by eapply IH.
    + unfold bind. rewrite Hwrite. unfold set_cell at 1, update_row at 1.
      by eapply IH.
    + by rewrite Hthrow in Hturn.
Qed.

(** The update of a row that holds, for every property with an entry,
    the conversion of that entry, leaves the realm as it is. *)
Lemma populate_found_same ctx object value try_update props :
  Forall (λ p, is_link_type (Property.type p) = false) props →
  ∀ realm,
    (∀ prop, prop ∈ props → updated_by ctx value prop →
       ∃ v c, dict_value_for_key ctx value (Property.name prop) = Done v
              ∧ converted_to ctx prop v c
              ∧ cell_at realm (row object) (Property.table_column prop) = Some c) →
    populate ctx object value try_update false props realm = (Done tt, realm).
Proof.
  induction props as [|prop props IH]; intros Hscalar realm Hcells; [done|].
  apply Forall_cons in Hscalar as [Hprop Hprops]. simpl.
  assert (populate_property ctx object value try_update false prop realm
          = (Done tt, realm)) as Hturn.
  { destruct (decide (updated_by ctx value prop)) as [Hup|Hskip].
    - destruct (Hcells prop) as (v & c & Hv & Hc & Hcell); [left|done|].
      rewrite populate_property_updated by done. rewrite bind_lift, Hv.
      destruct (scalar_write_cases ctx object prop v try_update Hprop)
        as [(c' & Hc' & Hwrite)|(e & _ & Hnone)]; [|by destruct (Hnone c)].
      rewrite Hwrite, (converted_to_unique _ _ _ _ _ Hc' Hc).
      by apply set_cell_id.
    - by apply populate_property_skipped. }
  rewrite (bind_done _ _ _ _ _ Hturn). apply IH; [done|].
  intros p Hp. apply Hcells. by right.
Qed.

(** X12: no object is recognised but by its primary key.  For a schema
    without primary key property and without link properties, a [create]
    that returned is followed, for the same input, by a [create] that
    returns as well, on a second row allocated right after the first. *)
Theorem create_twice_without_key ctx schema value try_update realm object realm' :
  Forall (λ p, is_link_type (Property.type p) = false)
         (ObjectSchema.properties schema) →
  primary_key_property schema = None →
  create ctx schema value try_update realm = (Done object, realm') →
  get_index (row object) = length (backing_table realm schema)
  ∧ ∃ realm'',
      create ctx schema value try_update realm'
      = (Done (mkObject schema
                 (mkRow (ObjectSchema.name schema) (S (get_index (row object))))),
         realm'')
      ∧ length (backing_table realm'' schema)
        = S (S (length (backing_table realm schema))).
Proof.
  intros Hscalar Hpk Hrun.
  assert (is_in_transaction realm = true) as Htx.
  { destruct (is_in_transaction realm) eqn:Htx; [done|].
    erewrite create_no_row in Hrun; [done|].
    by apply get_or_create_row_no_transaction. }
  pose proof (get_or_create_row_no_primary_key ctx schema value try_update realm
                Htx Hpk) as Hrow.
  destruct (create_run_inv _ _ _ _ _ _ _ _ _ _ Hrow Hrun) as (o1 & Hpop & Ho).
  destruct o1 as [[]|e]; [|done]. injection Ho as ->. simpl.
  split; [done|].
  pose proof (get_or_create_row_exists _ _ _ _ _ _ _ _ Hrow) as (_ & _ & _ & Hlen1).
  destruct (populate_scalar_frame ctx _ value try_update true _ Hscalar _ _ _ Hpop)
    as ((Htx' & Hlen' & _) & _ & _).
  assert (length (backing_table realm' schema)
          = S (length (backing_table realm schema))) as Hlength.
  { unfold backing_table. rewrite Hlen', Hlen1. simpl.
    rewrite bool_decide_eq_true_2 by done. lia. }
  assert (is_in_transaction realm' = true) as Htx2 by (simpl in Htx'; congruence).
  pose proof (get_or_create_row_no_primary_key ctx schema value try_update realm'
                Htx2 Hpk) as Hrow2.
  rewrite Hlength in Hrow2.
  destruct (populate_scalar_returns ctx schema value try_update true _ Hscalar
              _ _ _ Hpop
              (mkRow (ObjectSchema.name schema)
                     (S (length (backing_table realm schema))))
              (with_empty_row realm' schema)) as [realm'' Hpop2].
  exists realm''. split.
  - rewrite (create_on_row _ _ _ _ _ _ _ _ Hrow2). unfold populate_row.
    by rewrite (bind_done _ _ _ _ _ Hpop2).
  - destruct (populate_scalar_frame ctx _ value try_update true _ Hscalar
                _ _ _ Hpop2) as ((_ & Hlen'' & _) & _ & _).
    unfold backing_table in *. rewrite Hlen'', table_with_empty_row.
    rewrite decide_True by done. rewrite length_app. simpl.
    unfold backing_table. lia.
Qed.

(** X13: an upsert is idempotent.  For a schema without link properties
    and with distinct columns whose primary key property has type int or
    string, after a [create] that returned for an input that carries the
    key, a [create] of the same input with upsert returns the same object
    and leaves the realm exactly as it found it. *)
Theorem upsert_idempotent ctx schema primary_prop value try_update realm
    object realm' :
  Forall (λ p, is_link_type (Property.type p) = false)
         (ObjectSchema.properties schema) →
  NoDup (Property.table_column <$> ObjectSchema.properties schema) →
  primary_key_property schema = Some primary_prop →
  Property.type primary_prop = PropertyTypeInt
  ∨ Property.type primary_prop = PropertyTypeString →
  dict_has_value_for_key ctx value (ObjectSchema.primary_key schema) = true →
  create ctx schema value try_update realm = (Done object, realm') →
  create ctx schema value true realm' = (Done object, realm').
Proof.
  intros Hscalar Hnodup Hpk Hty Hhas Hrun.
  destruct (create_lookup_agree ctx schema primary_prop value try_update realm
              object realm' Hscalar Hnodup Hpk Hty Hhas Hrun)
    as (kv & Hkv & Hfirst & Htx').
  rewrite (create_updates_match _ _ primary_prop _ _ kv _ Htx' Hpk Hkv Hfirst).
  destruct (get_or_create_row ctx schema value try_update realm)
    as [[[i created]|e] realm1] eqn:Hrow.
  2:{ by rewrite (create_no_row _ _ _ _ _ _ _ Hrow) in Hrun. }
  destruct (create_run_inv _ _ _ _ _ _ _ _ _ _ Hrow Hrun) as (o1 & Hpop & Ho).
  destruct o1 as [[]|e]; [|done]. injection Ho as ->. cbn [row get_index].
  pose proof (get_or_create_row_exists _ _ _ _ _ _ _ _ Hrow) as (Hexists1 & _).
  unfold populate_row.
  assert (populate ctx (mkObject schema (mkRow (ObjectSchema.name schema) i))
                   value true false (ObjectSchema.properties schema) realm'
          = (Done tt, realm')) as Hsame; [|unfold bind; by rewrite Hsame].
  apply populate_found_same; [done|].
  intros prop Hin [Hprimary Hentry].
  destruct (populate_scalar_cells ctx
              (mkObject schema (mkRow (ObjectSchema.name schema) i))
              value try_update created _ Hscalar Hnodup realm1 realm' Hexists1
              Hpop prop Hin) as [(v & c & Hv & Hc & Hcell)|[[_ Hpass] _]].
  - exists v, c. split_and!; [|done..].
    destruct Hv as [_ [[_ Hv]|(_ & Hno & _)]]; [done|congruence].
  - destruct Hpass; congruence.
Qed.

End Repeat.

(** ** Examples on accounts *)

Lemma Account_scalar :
  Forall (λ p, is_link_type (Property.type p) = false)
         (ObjectSchema.properties Account).
Proof. repeat constructor. Qed.

Lemma Account_columns :
  NoDup (Property.table_column <$> ObjectSchema.properties Account).
Proof. apply (bool_decide_unpack (NoDup _)). vm_compute. exact I. Qed.

(** The owner of a fresh row is written as a string cell. *)
Lemma scalar_write_effect_witness :
  let realm := with_empty_row empty_realm Account in
  let realm' := mkRealm true (<["Account" := [<[1 := CString "Eve"]> ∅]]> ∅) in
  same_but_row realm realm' eve_row
  ∧ ∃ c, converted_to (Accessor := JSAccessor 0) account_ctx account_owner
                      (JSString "Eve") c
         ∧ realm' = (set_cell eve_row 1 c realm).2
         ∧ (is_Some (row_data realm eve_row) → cell_at realm' eve_row 1 = Some c).
Proof.
  intros realm realm'.
  apply (scalar_write_effect (Accessor := JSAccessor 0) account_ctx
           (mkObject Account eve_row) account_owner (JSString "Eve") false
           realm (Done tt) realm').
  - reflexivity.
  - vm_compute. reflexivity.
Defined.

(** The owner is written twice: the second name stays. *)
Lemma scalar_writes_compose_witness :
  let object := mkObject Account eve_row in
  let realm := with_empty_row empty_realm Account in
  let realm2 := mkRealm true (<["Account" := [<[1 := CString "Bob"]> ∅]]> ∅) in
  (Property.table_column account_owner = Property.table_column account_owner →
     set_property_value_impl (Accessor := JSAccessor 0) account_ctx object
       account_owner (JSString "Bob") false realm
     = (Done tt, realm2))
  ∧ (Property.table_column account_owner ≠ Property.table_column account_owner →
     ∃ realm1',
       set_property_value_impl (Accessor := JSAccessor 0) account_ctx object
         account_owner (JSString "Bob") false realm
       = (Done tt, realm1')
       ∧ set_property_value_impl (Accessor := JSAccessor 0) account_ctx object
           account_owner (JSString "Eve") false realm1'
         = (Done tt, realm2)).
Proof.
  intros object realm realm2.
  apply (scalar_writes_compose (Accessor := JSAccessor 0) account_ctx object
           account_owner account_owner (JSString "Eve") (JSString "Bob") false
           realm
           (mkRealm true (<["Account" := [<[1 := CString "Eve"]> ∅]]> ∅)) realm2);
    try reflexivity; vm_compute; reflexivity.
Defined.

(** The first account is created in an empty realm, on row 0. *)
Lemma create_account :
  get_or_create_row (Accessor := JSAccessor 0) account_ctx Account account_value
                    false empty_realm
  = (Done (0, true), with_empty_row empty_realm Account)
  ∧ create (Accessor := JSAccessor 0) account_ctx Account account_value false
           empty_realm
    = (Done (mkObject Account eve_row), eve_realm).
Proof. split; vm_compute; reflexivity. Qed.

Lemma create_touches_one_row_witness :
  is_in_transaction eve_realm = is_in_transaction empty_realm
  ∧ is_Some (row_data eve_realm eve_row)
  ∧ (∀ row', row' ≠ eve_row → row_data eve_realm row' = row_data empty_realm row')
  ∧ (∀ object_type,
       length (table_for_object_type (read_group eve_realm) object_type)
       = length (table_for_object_type (read_group empty_realm) object_type)
         + (if true && bool_decide (object_type = "Account") then 1 else 0))
  ∧ ∀ object, Done (mkObject Account eve_row) = Done object →
              object = mkObject Account eve_row.
Proof.
  exact (create_touches_one_row (Accessor := JSAccessor 0) account_ctx Account
           account_value false empty_realm 0 true
           (with_empty_row empty_realm Account) _ eve_realm
           Account_scalar (proj1 create_account) (proj2 create_account)).
Defined.

(** The input has no entry "open": there is a default for it. *)
Lemma created_object_is_complete_witness :
  dict_has_value_for_key (NativeAccessor := JSAccessor 0) account_ctx
                         account_value "open" = true
  ∨ has_default_value_for_property (NativeAccessor := JSAccessor 0) account_ctx
                                   Account "open" = true.
Proof.
  apply (created_object_is_complete (Accessor := JSAccessor 0) account_ctx Account
           account_value false empty_realm 0
           (with_empty_row empty_realm Account) (mkObject Account eve_row)
           eve_realm (proj1 create_account) (proj2 create_account) account_open).
  apply list_elem_of_lookup. by exists 2.
Defined.

(** The column of "open" holds the conversion of what was supplied. *)
Lemma create_stores_supplied_values_witness :
  (∃ v c, supplied (Accessor := JSAccessor 0) account_ctx Account account_value
                   true account_open v
          ∧ converted_to (Accessor := JSAccessor 0) account_ctx account_open v c
          ∧ cell_at eve_realm eve_row 2 = Some c)
  ∨ (passed_over (Accessor := JSAccessor 0) account_ctx account_value true
                 account_open
     ∧ stored_at eve_realm eve_row 2 = stored_at empty_realm eve_row 2).
Proof.
  apply (create_stores_supplied_values (Accessor := JSAccessor 0) account_ctx
           Account account_value false empty_realm 0 true
           (with_empty_row empty_realm Account) (mkObject Account eve_row)
           eve_realm Account_scalar Account_columns
           (proj1 create_account) (proj2 create_account) account_open).
  apply list_elem_of_lookup. by exists 2.
Defined.

(** The account just created is found again under its key. *)
Lemma create_then_lookup_witness :
  (∃ kv,
     dict_value_for_key (NativeAccessor := JSAccessor 0) account_ctx account_value
                        "id" = Done kv
     ∧ first_key_match (Accessor := JSAccessor 0) account_ctx account_id kv
                       (backing_table eve_realm Account) 0)
  ∧ create (Accessor := JSAccessor 0) account_ctx Account account_value false
           eve_realm
    = (Throw (DuplicateKeyError "Account"), eve_realm)
  ∧ create (Accessor := JSAccessor 0) account_ctx Account account_value true
           eve_realm
    = populate_row (Accessor := JSAccessor 0) account_ctx Account account_value
                   true 0 false eve_realm.
Proof.
  exact (create_then_lookup (Accessor := JSAccessor 0) account_ctx Account
           account_id account_value false empty_realm (mkObject Account eve_row)
           eve_realm Account_scalar Account_columns eq_refl (or_introl eq_refl)
           eq_refl (proj2 create_account)).
Defined.

Lemma upsert_idempotent_witness :
  create (Accessor := JSAccessor 0) account_ctx Account account_value true eve_realm
  = (Done (mkObject Account eve_row), eve_realm).
Proof.
  exact (upsert_idempotent (Accessor := JSAccessor 0) account_ctx Account
           account_id account_value false empty_realm (mkObject Account eve_row)
           eve_realm Account_scalar Account_columns eq_refl (or_introl eq_refl)
           eq_refl (proj2 create_account)).
Defined.


(** The owner of a new account is a number: the id is written, the
    creation stops at the owner, and the row stays. *)
Lemma create_stops_at_first_failure_witness :
  let value := JSDict [("id", JSNumber 8); ("owner", JSNumber 5)] in
  create (Accessor := JSAccessor 0) account_ctx Account value false eve_realm
  = (Throw (RuntimeError "Value is not a string"),
     mkRealm true (<["Account" := [eve; <[0 := CInt 8]> ∅]]> ∅)).
Proof.
  intros value.
  apply (create_stops_at_first_failure (Accessor := JSAccessor 0) account_ctx
           Account value false eve_realm [account_id] account_owner
           [account_open; account_key] 1 true
           (with_empty_row eve_realm Account)
           (mkRealm true (<["Account" := [eve; <[0 := CInt 8]> ∅]]> ∅)));
    vm_compute; reflexivity.
Defined.

(** The properties of an account taken in reverse order give the same
    row. *)
Lemma populate_order_irrelevant_witness :
  populate (Accessor := JSAccessor 0) account_ctx (mkObject Account eve_row)
           account_value false true
           [account_key; account_open; account_owner; account_id]
           (with_empty_row empty_realm Account)
  = (Done tt, eve_realm).
Proof.
  apply (populate_order_irrelevant (Accessor := JSAccessor 0) account_ctx
           (mkObject Account eve_row) account_value false true
           (ObjectSchema.properties Account)).
  - symmetry. apply (reverse_Permutation (ObjectSchema.properties Account)).
  - exact Account_scalar.
  - exact Account_columns.
  - vm_compute. reflexivity.
Defined.

(** Two notes with the same text are two rows. *)
Lemma create_twice_without_key_witness :
  let value := JSDict [("text", JSString "hello")] in
  let realm' := mkRealm true (<["Note" := [<[0 := CString "hello"]> ∅]]> ∅) in
  0 = length (backing_table empty_realm Note)
  ∧ ∃ realm'',
      create (Accessor := JSAccessor 0) sample_ctx Note value false realm'
      = (Done (mkObject Note (mkRow "Note" 1)), realm'')
      ∧ length (backing_table realm'' Note)
        = S (S (length (backing_table empty_realm Note))).
Proof.
  intros value realm'.
  apply (create_twice_without_key (Accessor := JSAccessor 0) sample_ctx Note value
           false empty_realm (mkObject Note (mkRow "Note" 0)) realm').
  - repeat constructor.
  - reflexivity.
  - vm_compute. reflexivity.
Defined.
